(** * rtach compression benchmark: a shallow embedding of
      [tools/compression_bench.py] and the properties of its generators,
      framing strategies, metrics and benchmark matrix.

    Conventions of the embedding.
    - Python [int] is [Z]; [bytes]/[bytearray] is [list byte]; [len] is the
      list length read in [Z].
    - [float] arithmetic is idealised as exact arithmetic in [Q]; every
      float constant of the program (1e9, 1024, 100, 0.5) is an integer or a
      dyadic rational, and true division by zero raises.  Two things are
      not modelled: the rounding of a quotient or product to binary64, and
      the [OverflowError] of an integer beyond the float range.  The
      statements about the metrics are therefore about the exception
      raised, about 64-bit integers where a value is said to be returned,
      and about inputs on which every float operation is exact where the
      value itself is given.
    - The process state touched by the program (the global random generator,
      the monotonic clock, standard output) is threaded explicitly; code that
      touches none of it is polymorphic in the state.
    - A [while] loop is a [Fixpoint] on a fuel argument that bounds the
      number of iterations; running out of fuel is a distinct outcome, and
      the theorems give the amount of fuel under which the loop finishes. *)

From Stdlib Require Import ZArith String Ascii Lia Bool QArith Qround DecimalString List.
From Stdlib.Strings Require Import Byte.
Import ListNotations.
Open Scope Z_scope.

(** ** Python values and built-ins used by the program *)

Module Py.

Definition bytes := list byte.

Definition len {A : Type} (l : list A) : Z := Z.of_nat (length l).

(** A [bytes] literal written with ASCII characters. *)
Definition b (s : string) : bytes := list_byte_of_string s.

(** [x * n] on byte sequences: the empty sequence for [n <= 0]. *)
Definition mul (x : bytes) (n : Z) : bytes := concat (repeat x (Z.to_nat n)).

(** [c * n] for a one-character string [c]. *)
Definition smul (c : ascii) (n : nat) : string :=
  string_of_list_ascii (repeat c n).

(** Normalisation of a slice bound against a length: a negative bound counts
    from the end, and the result is clamped to [0 .. len]. *)
Definition clamp (n i : Z) : Z :=
  if i <? 0 then Z.max (i + n) 0 else Z.min i n.

(** [data[lo:hi]]. *)
Definition slice {A : Type} (data : list A) (lo hi : Z) : list A :=
  let n := len data in
  firstn (Z.to_nat (clamp n hi - clamp n lo)) (skipn (Z.to_nat (clamp n lo)) data).

(** [data[:hi]]. *)
Definition slice_to {A : Type} (data : list A) (hi : Z) : list A :=
  slice data 0 hi.

(** [str(n)] for an [int], as an f-string renders [{n}]. *)
Definition str (n : Z) : string := NilZero.string_of_int (Z.to_int n).

(** [f"{s:<w}"] and [f"{s:>w}"]: the text padded with spaces to width [w]. *)
Definition ljust (s : string) (w : nat) : string :=
  (s ++ smul " " (w - String.length s))%string.

Definition rjust (s : string) (w : nat) : string :=
  (smul " " (w - String.length s) ++ s)%string.

(** The newline character. *)
Definition nl : string := String "010"%char EmptyString.

(** Exceptions the modelled code can raise. *)
Inductive exn : Type :=
| ImportError
| IndexError
| ValueError
| ZeroDivisionError.

Definition exn_eqb (e1 e2 : exn) : bool :=
  match e1, e2 with
  | ImportError, ImportError
  | IndexError, IndexError
  | ValueError, ValueError
  | ZeroDivisionError, ZeroDivisionError => true
  | _, _ => false
  end.

End Py.
Import Py.

(** ** A state-and-exception monad for the effectful code *)

(** Outcome of running a piece of code from a state: a value and the state
    reached, an exception and the state reached when it was raised, or the
    fuel of a loop used up before the loop finished. *)
Inductive outcome (S A : Type) : Type :=
| Done (a : A) (s : S)
| Fail (e : exn) (s : S)
| Exhausted.
Arguments Done {S A} a s.
Arguments Fail {S A} e s.
Arguments Exhausted {S A}.

Definition M (S A : Type) : Type := S -> outcome S A.

Definition ret {S A : Type} (a : A) : M S A := fun s => Done a s.

Definition bind {S A B : Type} (m : M S A) (k : A -> M S B) : M S B :=
  fun s =>
    match m s with
    | Done a s' => k a s'
    | Fail e s' => Fail e s'
    | Exhausted => Exhausted
    end.

Definition raise {S A : Type} (e : exn) : M S A := fun s => Fail e s.

Definition out_of_fuel {S A : Type} : M S A := fun _ => Exhausted.

(** The result of a pure loop, [None] when its fuel ran out. *)
Definition lift_fuel {S A : Type} (r : option A) : M S A :=
  match r with
  | Some a => ret a
  | None => out_of_fuel
  end.

(** A computation on a component [T] of the state [S]. *)
Definition zoom {S T A : Type} (get : S -> T) (set : T -> S -> S)
  (m : M T A) : M S A :=
  fun s =>
    match m (get s) with
    | Done a t => Done a (set t s)
    | Fail e t => Fail e (set t s)
    | Exhausted => Exhausted
    end.

(** [try: m  except e: handler]. *)
Definition try_except {S A : Type} (m : M S A) (e : exn) (handler : M S A)
  : M S A :=
  fun s =>
    match m s with
    | Fail e' s' => if exn_eqb e' e then handler s' else Fail e' s'
    | r => r
    end.

Declare Scope monad_scope.
Delimit Scope monad_scope with monad.
Notation "x <- m ;; k" := (bind m (fun x => k))
  (at level 61, m at next level, right associativity) : monad_scope.
Notation "' pat <- m ;; k" := (bind m (fun x => match x with pat => k end))
  (at level 61, pat pattern, m at next level, right associativity) : monad_scope.
Notation "m ;; k" := (bind m (fun _ => k))
  (at level 61, right associativity) : monad_scope.
Open Scope monad_scope.

(** [for x in xs: body x]. *)
Fixpoint for_each {S A : Type} (xs : list A) (body : A -> M S unit) : M S unit :=
  match xs with
  | [] => ret tt
  | x :: xs' => body x ;; for_each xs' body
  end.

(** [seq[i]] with Python's negative indices. *)
Definition getitem {S A : Type} (seq : list A) (i : Z) : M S A :=
  let j := if i <? 0 then i + len seq else i in
  if j <? 0 then raise IndexError
  else match nth_error seq (Z.to_nat j) with
       | Some x => ret x
       | None => raise IndexError
       end.

(** True division [a / c]: [ZeroDivisionError] for a zero divisor, the
    exact quotient otherwise (no rounding, no [OverflowError]). *)
Definition truediv {S : Type} (a c : Q) : M S Q :=
  if Qeq_bool c 0 then raise ZeroDivisionError else ret (a / c)%Q.

(** ** Synthetic data: the editor generator *)

(** ESC, the first byte of every escape sequence. *)
Definition ESC : byte := x1b.

(** [f"\x1b[{line};{col}H".encode()]. *)
Definition cursor_move (line col : Z) : bytes :=
  ESC :: b ("[" ++ str line ++ ";" ++ str col ++ "H")%string.

Definition content : bytes := b "const foo = 123;".

(** State of the generator's loop: the buffer and the cursor position. *)
Record editor_state : Type := mk_editor_state
  { ed_data : bytes; ed_line : Z; ed_col : Z }.

(** One iteration of the loop body. *)
Definition editor_body (s : editor_state) : editor_state :=
  let data := ed_data s ++ cursor_move (ed_line s) (ed_col s) in
  let data := data ++ content in
  mk_editor_state data (ed_line s mod 50 + 1) (ed_col s mod 80 + 1).

(** [while len(data) + 20 < size: ...] *)
Fixpoint editor_loop (fuel : nat) (size : Z) (s : editor_state)
  : option editor_state :=
  if len (ed_data s) + 20 <? size then
    match fuel with
    | O => None
    | S fuel' => editor_loop fuel' size (editor_body s)
    end
  else Some s.

Definition editor_init : editor_state := mk_editor_state [] 1 1.

Definition generate_editor_data {S : Type} (fuel : nat) (size : Z) : M S bytes :=
  s <- lift_fuel (editor_loop fuel size editor_init) ;;
  let data := ed_data s in
  let data := data ++ mul (b " ") (size - len data) in
  ret (slice_to data size).

(** ** The [random] module

    The Mersenne Twister is not modelled: the generator is any state type
    [G] with the two primitives the program's calls reduce to, under their
    range contracts.  [random53] is the 53-bit numerator of [random()],
    whose value is [k / 2^53]. *)

Class RandomGen (G : Type) : Type :=
  { seed_state : Z -> G;
    randbelow : Z -> G -> Z * G;
    random53 : G -> Z * G;
    randbelow_range : forall n g, 0 < n -> 0 <= fst (randbelow n g) < n;
    random53_range : forall g, 0 <= fst (random53 g) < 2 ^ 53 }.

Module random.
Section Ops.
Context {G : Type} `{RandomGen G}.

(** [random.seed(a)] *)
Definition seed (a : Z) : M G unit := fun _ => Done tt (seed_state a).

(** [random.randint(a, c)], that is [randrange(a, c + 1)]. *)
Definition randint (a c : Z) : M G Z :=
  let width := c + 1 - a in
  if 0 <? width then fun g => let (r, g') := randbelow width g in Done (a + r) g'
  else raise ValueError.

(** [random.random()] *)
Definition random : M G Q :=
  fun g => let (k, g') := random53 g in Done (k # 9007199254740992)%Q g'.

(** [random.choice(seq)] *)
Definition choice {A : Type} (seq : list A) : M G A :=
  if len seq =? 0 then raise IndexError
  else fun g => let (i, g') := randbelow (len seq) g in getitem seq i g'.

(** [random.choices(population, k=k)]:
    [[population[floor(random() * n)] for _ in range(k)]], the product
    being exact. *)
Fixpoint choices_from {A : Type} (population : list A) (k : nat) : M G (list A) :=
  match k with
  | O => ret []
  | S k' =>
      r <- random ;;
      x <- getitem population (Qfloor (r * inject_Z (len population))) ;;
      xs <- choices_from population k' ;;
      ret (x :: xs)
  end.

Definition choices {A : Type} (population : list A) (k : Z) : M G (list A) :=
  choices_from population (Z.to_nat k).

End Ops.
End random.

(** ** Synthetic data: the terminal generator *)

Definition esc (s : string) : bytes := ESC :: b s.

Definition escapes : list bytes :=
  [ esc "[0m"; esc "[1m"; esc "[32m"; esc "[31m"; esc "[0;32m"; esc "[1;33m";
    esc "[38;5;208m"; esc "[K"; esc "[2J"; esc "[H"; esc "[?25h"; esc "[?25l" ].

Definition patterns : list bytes :=
  [ b "drwxr-xr-x"; b "-rw-r--r--"; b "total "; b "user@host:"; b "$ ";
    b ">>> "; b "... "; b "error: "; b "warning: "; b "  adding: ";
    b "Compiling "; b "   Linking " ].

(** [string.printable.encode()]: digits, letters, punctuation, whitespace. *)
Definition printable : bytes :=
  b "0123456789abcdefghijklmnopqrstuvwxyzABCDEFGHIJKLMNOPQRSTUVWXYZ!"
  ++ [x22] ++ b "#$%&'()*+,-./:;<=>?@[\]^_`{|}~ "
  ++ [x09; x0a; x0d; x0b; x0c].

Section Terminal.
Context {G : Type} `{RandomGen G}.

(** One iteration of the loop body: the category drawn decides what is
    appended. *)
Definition terminal_body (data : bytes) : M G bytes :=
  choice <- random.randint 0 10 ;;
  if choice <=? 2 then
    e <- random.choice escapes ;; ret (data ++ e)
  else if choice <=? 4 then
    n <- random.randint 1 40 ;; ret (data ++ mul (b " ") n)
  else if choice =? 5 then
    r <- random.random ;;
    let data := if Qle_bool r (1 # 2) then data else data ++ [x0d] in
    ret (data ++ [x0a])
  else if choice <=? 7 then
    p <- random.choice patterns ;; ret (data ++ p)
  else if choice <=? 9 then
    k <- random.randint 10 80 ;;
    cs <- random.choices printable k ;;
    ret (data ++ cs)
  else
    ret (data ++ [x00]).

(** [while len(data) < size: ...] *)
Fixpoint terminal_loop (fuel : nat) (size : Z) (data : bytes) : M G bytes :=
  if len data <? size then
    match fuel with
    | O => out_of_fuel
    | S fuel' => data' <- terminal_body data ;; terminal_loop fuel' size data'
    end
  else ret data.

Definition generate_terminal_data (fuel : nat) (size : Z) : M G bytes :=
  let data := [] in
  random.seed 12345 ;;
  data <- terminal_loop fuel size data ;;
  ret (slice_to data size).

End Terminal.

(** ** Process state: random generator, clock and standard output *)

(** [time.perf_counter_ns()]: a reading of the clock and the clock after
    it. *)
Class Clock (T : Type) : Type :=
  { clock_read : T -> Z * T }.

(** A printed line.  A [Row] is one line of a result table,
    [f"{label} {size:>8} {comp:>8} {ratio:>7.1f}% {mbps:>7.1f}"], kept as
    its label and the four numbers it renders. *)
Inductive line : Type :=
| Text (s : string)
| Row (label : string) (size comp : Z) (ratio mbps : Q).

Record World (G T : Type) : Type := mk_World
  { w_rng : G; w_clock : T; w_stdout : list line }.
Arguments mk_World {G T} _ _ _.
Arguments w_rng {G T} _.
Arguments w_clock {G T} _.
Arguments w_stdout {G T} _.

Section Process.
Context {G T : Type} `{RandomGen G} `{Clock T}.

Definition set_rng (g : G) (w : World G T) : World G T :=
  mk_World g (w_clock w) (w_stdout w).

(** Code that uses the global random generator, run in the process. *)
Definition with_random {A : Type} (m : M G A) : M (World G T) A :=
  zoom w_rng set_rng m.

Definition perf_counter_ns : M (World G T) Z :=
  fun w => let (n, t) := clock_read (w_clock w) in
           Done n (mk_World (w_rng w) t (w_stdout w)).

Definition print (l : line) : M (World G T) unit :=
  fun w => Done tt (mk_World (w_rng w) (w_clock w) (w_stdout w ++ [l])).

(** *** Start-up: probing the optional zstd backend

    [zstd_installed] tells whether [import zstandard] succeeds. *)

Definition import_zstandard (zstd_installed : bool) : M (World G T) unit :=
  if zstd_installed then ret tt else raise ImportError.

(** The module-level [try]/[except]; the value is [HAS_ZSTD]. *)
Definition module_init (zstd_installed : bool) : M (World G T) bool :=
  try_except
    (import_zstandard zstd_installed ;; ret true)
    ImportError
    (print (Text "Note: zstd not available, skipping zstd tests") ;;
     print (Text ("Install with: pip install zstandard" ++ nl)) ;;
     ret false).

(** *** Metrics *)

Record Result : Type := mk_Result
  { name : string; original : Z; compressed : Z; time_ns : Z }.

Definition ratio {S : Type} (self : Result) : M S Q :=
  q <- truediv (inject_Z (compressed self)) (inject_Z (original self)) ;;
  ret (q * 100)%Q.

Definition speed_mbps {S : Type} (self : Result) : M S Q :=
  seconds <- truediv (inject_Z (time_ns self)) 1000000000 ;;
  if Qeq_bool seconds 0 then ret 0%Q
  else
    q <- truediv (inject_Z (original self)) 1024 ;;
    q <- truediv q 1024 ;;
    truediv q seconds.

(** *** Compressor back ends and framing strategies

    The compression libraries are parameters: [zlib_compress data level] is
    [zlib.compress(data, level)], [lzma_compress data] is
    [lzma.compress(data)], and [zstd_compress level data] is
    [zstd.ZstdCompressor(level=level).compress(data)], each a function of
    its arguments.  [HAS_ZSTD] is the module's availability flag. *)

Variable zlib_compress : bytes -> Z -> bytes.
Variable lzma_compress : bytes -> bytes.
Variable zstd_compress : Z -> bytes -> bytes.
Variable HAS_ZSTD : bool.

Definition compress_streaming_zlib (data : bytes) (level : Z)
  : M (World G T) (Z * Z) :=
  start <- perf_counter_ns ;;
  let compressed := zlib_compress data level in
  stop <- perf_counter_ns ;;
  let elapsed := stop - start in
  ret (len compressed, elapsed).

(** The [while offset < len(data)] loop of both per-frame functions, which
    differ only in the call that compresses a chunk. *)
Fixpoint frame_loop (compress : bytes -> bytes) (fuel : nat) (data : bytes)
  (frame_size total offset : Z) : option Z :=
  if offset <? len data then
    match fuel with
    | O => None
    | S fuel' =>
        let chunk := slice data offset (offset + frame_size) in
        let compressed := compress chunk in
        let total := total + (4 + len compressed) in
        let offset := offset + frame_size in
        frame_loop compress fuel' data frame_size total offset
    end
  else Some total.

Definition compress_per_frame_zlib (fuel : nat) (data : bytes)
  (frame_size level : Z) : M (World G T) (Z * Z) :=
  start <- perf_counter_ns ;;
  total <- lift_fuel
    (frame_loop (fun chunk => zlib_compress chunk level) fuel data frame_size 0 0) ;;
  stop <- perf_counter_ns ;;
  let elapsed := stop - start in
  ret (total, elapsed).

Definition compress_streaming_lzma (data : bytes) : M (World G T) (Z * Z) :=
  start <- perf_counter_ns ;;
  let compressed := lzma_compress data in
  stop <- perf_counter_ns ;;
  let elapsed := stop - start in
  ret (len compressed, elapsed).

Definition compress_streaming_zstd (data : bytes) (level : Z)
  : M (World G T) (Z * Z) :=
  if negb HAS_ZSTD then ret (0, 0)
  else
    start <- perf_counter_ns ;;
    let cctx := zstd_compress level in
    let compressed := cctx data in
    stop <- perf_counter_ns ;;
    let elapsed := stop - start in
    ret (len compressed, elapsed).

Definition compress_per_frame_zstd (fuel : nat) (data : bytes)
  (frame_size level : Z) : M (World G T) (Z * Z) :=
  if negb HAS_ZSTD then ret (0, 0)
  else
    start <- perf_counter_ns ;;
    let cctx := zstd_compress level in
    total <- lift_fuel (frame_loop cctx fuel data frame_size 0 0) ;;
    stop <- perf_counter_ns ;;
    let elapsed := stop - start in
    ret (total, elapsed).

(** *** The benchmark matrix *)

(** The guarded throughput expression of the report loop,
    [(size / 1024 / 1024) / (ns / 1e9) if ns > 0 else 0]. *)
Definition inline_mbps {S : Type} (size ns : Z) : M S Q :=
  if ns >? 0 then
    q <- truediv (inject_Z size) 1024 ;;
    q <- truediv q 1024 ;;
    seconds <- truediv (inject_Z ns) 1000000000 ;;
    truediv q seconds
  else ret 0%Q.

(** The three lines that follow every measurement in [main]: the ratio, the
    guarded throughput, and the printed row. *)
Definition report (label : string) (size comp ns : Z) : M (World G T) unit :=
  q <- truediv (inject_Z comp) (inject_Z size) ;;
  let ratio := (q * 100)%Q in
  mbps <- inline_mbps size ns ;;
  print (Row label size comp ratio mbps).

(** The labels of the five kinds of row. *)
Definition label_zlib_streaming (level : Z) : string :=
  "zlib_streaming_level" ++ ljust (str level) 25.

Definition label_zlib_frame (frame level : Z) : string :=
  "zlib_frame" ++ str frame ++ "_level" ++ ljust (str level) 22.

Definition label_lzma_streaming : string :=
  "lzma_streaming" ++ ljust "" 31.

Definition label_zstd_streaming (level : Z) : string :=
  "zstd_streaming_level" ++ ljust (str level) 25.

Definition label_zstd_frame (frame : Z) : string :=
  "zstd_frame" ++ str frame ++ "_level3" ++ ljust "" 21.

Definition test_sizes : list Z := [1024; 4096; 16384; 65536].
Definition frame_sizes : list Z := [256; 512; 1024; 2048; 4096].

Definition table_header : string :=
  (ljust "Strategy" 45 ++ " " ++ rjust "Orig" 8 ++ " " ++ rjust "Comp" 8
   ++ " " ++ rjust "Ratio" 8 ++ " " ++ rjust "MB/s" 8)%string.

(** Body of [for name, data in [...]]: one table. *)
Definition main_table (fuel : nat) (size : Z) (entry : string * bytes)
  : M (World G T) unit :=
  let (name, data) := entry in
  print (Text (nl ++ name ++ ":")) ;;
  print (Text table_header) ;;
  print (Text (smul "-" 80)) ;;
  for_each [1; 6; 9] (fun level =>
    '(comp, ns) <- compress_streaming_zlib data level ;;
    report (label_zlib_streaming level) size comp ns) ;;
  for_each [512; 1024; 2048] (fun frame =>
    if frame >? size then ret tt
    else
      for_each [1; 6] (fun level =>
        '(comp, ns) <- compress_per_frame_zlib fuel data frame level ;;
        report (label_zlib_frame frame level) size comp ns)) ;;
  (if size <=? 16384 then
     '(comp, ns) <- compress_streaming_lzma data ;;
     report label_lzma_streaming size comp ns
   else ret tt) ;;
  (if HAS_ZSTD then
     for_each [1; 3; 9] (fun level =>
       '(comp, ns) <- compress_streaming_zstd data level ;;
       report (label_zstd_streaming level) size comp ns) ;;
     for_each [1024; 2048] (fun frame =>
       if frame >? size then ret tt
       else
         '(comp, ns) <- compress_per_frame_zstd fuel data frame 3 ;;
         report (label_zstd_frame frame) size comp ns)
   else ret tt).

Definition analysis : string :=
"
KEY FINDINGS:

1. ALGORITHM COMPARISON:
   - zlib: Best balance of speed/ratio, available everywhere
   - zstd: Better ratio at same speed, requires extra dependency
   - lzma: Best ratio but far too slow for real-time

2. STREAMING vs PER-FRAME:
   - Streaming: ~5-15% better compression ratio
   - Per-frame: Independent decoding, simpler reconnection
   - For rtach: Per-frame is more practical (can decompress partial data)

3. OPTIMAL FRAME SIZE:
   - 256 bytes: Too much overhead from frame headers
   - 512-1024 bytes: Good balance for real-time
   - 2048+ bytes: Better ratio but adds latency

4. COMPRESSION LEVEL:
   - Level 1: Fastest, ~10-20% worse ratio
   - Level 6: Default, good balance
   - Level 9: Minimal improvement, much slower

RECOMMENDATIONS FOR RTACH:

1. Use zlib (deflate) - available in Zig std library
2. Per-frame compression with 1024 byte frames
3. Level 6 (default) for general use
4. Only compress if result is smaller than original
5. Add compression flag to protocol header

PROTOCOL CHANGE:
  Current:  [type:1][len:4][data]
  Proposed: [flags:1][type:1][len:4][data]

  Flags:
    bit 0: compressed (1) or raw (0)
    bit 1-7: reserved

MOSH COMPARISON:
  - Mosh uses zlib with 4MB dictionary (stateful streaming)
  - Mosh compresses terminal STATE DIFFS, not raw output
  - rtach compresses raw PTY output, so per-frame is appropriate

EXPECTED SAVINGS:
  - Typical terminal output: 40-60% of original size
  - Editor/TUI output: 30-50% of original size (more repetition)
  - Random binary: ~95-100% (no compression benefit)
".

(** Body of [for size in test_sizes]. *)
Definition main_size (fuel : nat) (size : Z) : M (World G T) unit :=
  print (Text (nl ++ smul "=" 80)) ;;
  print (Text ("Data size: " ++ str size ++ " bytes")) ;;
  print (Text (smul "=" 80)) ;;
  terminal_data <- with_random (generate_terminal_data fuel size) ;;
  editor_data <- generate_editor_data fuel size ;;
  for_each [("Terminal (mixed)"%string, terminal_data);
            ("Editor (cursor)"%string, editor_data)]
    (main_table fuel size).

Definition main (fuel : nat) : M (World G T) unit :=
  print (Text (smul "=" 80)) ;;
  print (Text "RTACH COMPRESSION BENCHMARK") ;;
  print (Text (smul "=" 80)) ;;
  let test_sizes := test_sizes in
  let frame_sizes := frame_sizes in
  for_each test_sizes (main_size fuel) ;;
  print (Text (nl ++ smul "=" 80)) ;;
  print (Text "ANALYSIS & RECOMMENDATIONS") ;;
  print (Text (smul "=" 80)) ;;
  print (Text analysis).

End Process.

(** The program: the module is initialised, then [main()] runs. *)
Definition program {G T : Type} `{RandomGen G} `{Clock T}
  (zlib_compress : bytes -> Z -> bytes) (lzma_compress : bytes -> bytes)
  (zstd_compress : Z -> bytes -> bytes) (zstd_installed : bool) (fuel : nat)
  : M (World G T) unit :=
  HAS_ZSTD <- module_init zstd_installed ;;
  main zlib_compress lzma_compress zstd_compress HAS_ZSTD fuel.

(** ** The cursor cycle of the editor generator *)

(** The cursor position of the next escape sequence, as the claim words it:
    one further, and back to 1 after line 50 and after column 80. *)
Definition wrap_next (p : Z * Z) : Z * Z :=
  ((if fst p =? 50 then 1 else fst p + 1),
   (if snd p =? 80 then 1 else snd p + 1)).

(** The first [n] positions of the cycle that starts at [p]. *)
Fixpoint cycle_from (p : Z * Z) (n : nat) : list (Z * Z) :=
  match n with
  | O => []
  | S n' => p :: cycle_from (wrap_next p) n'
  end.

Definition on_screen (p : Z * Z) : Prop :=
  1 <= fst p <= 50 /\ 1 <= snd p <= 80.

(** What one iteration appends for the position [p]. *)
Definition emitted (p : Z * Z) : bytes :=
  cursor_move (fst p) (snd p) ++ content.

Definition cursor (s : editor_state) : Z * Z := (ed_line s, ed_col s).

(** ** Per-frame framing, as the specification words it *)

(** Width of the length prefix counted for every frame. *)
Definition header_width : Z := 4.

(** [ceil(a / c)] for [c > 0]. *)
Definition ceil_div (a c : Z) : Z := (a + c - 1) / c.

(** The chunk of index [k]: [data[k*frame_size : (k+1)*frame_size]]. *)
Definition nth_chunk (data : bytes) (frame_size : Z) (k : nat) : bytes :=
  slice data (Z.of_nat k * frame_size) ((Z.of_nat k + 1) * frame_size).

(** The [ceil(len(data) / frame_size)] chunks of a buffer. *)
Definition chunks (data : bytes) (frame_size : Z) : list bytes :=
  map (nth_chunk data frame_size)
    (seq 0 (Z.to_nat (ceil_div (len data) frame_size))).

Definition sum (zs : list Z) : Z := fold_right Z.add 0 zs.

(** Sum over the chunks of header width plus compressed chunk size. *)
Definition per_frame_size (compress : bytes -> bytes) (data : bytes)
  (frame_size : Z) : Z :=
  sum (map (fun chunk => header_width + len (compress chunk))
         (chunks data frame_size)).

(** The chunks the loop of [frame_loop] takes, in order: the same loop,
    collecting each [chunk] instead of adding its cost. *)
Fixpoint visited_chunks (fuel : nat) (data : bytes) (frame_size offset : Z)
  : option (list bytes) :=
  if offset <? len data then
    match fuel with
    | O => None
    | S fuel' =>
        let chunk := slice data offset (offset + frame_size) in
        let offset := offset + frame_size in
        option_map (cons chunk) (visited_chunks fuel' data frame_size offset)
    end
  else Some [].

(** ** The benchmark matrix as data *)

(** One cell of a table: which back end, which framing, which parameters. *)
Inductive measurement : Type :=
| ZlibStreaming (level : Z)
| ZlibFrame (frame level : Z)
| LzmaStreaming
| ZstdStreaming (level : Z)
| ZstdFrame (frame : Z).

Definition label_of (m : measurement) : string :=
  match m with
  | ZlibStreaming level => label_zlib_streaming level
  | ZlibFrame frame level => label_zlib_frame frame level
  | LzmaStreaming => label_lzma_streaming
  | ZstdStreaming level => label_zstd_streaming level
  | ZstdFrame frame => label_zstd_frame frame
  end.

(** The cells of one table, in the order their rows are printed. *)
Definition table_plan (HAS_ZSTD : bool) (size : Z) : list measurement :=
  map ZlibStreaming [1; 6; 9]
  ++ flat_map (fun frame =>
       if frame >? size then [] else map (ZlibFrame frame) [1; 6])
       [512; 1024; 2048]
  ++ (if size <=? 16384 then [LzmaStreaming] else [])
  ++ (if HAS_ZSTD then
        map ZstdStreaming [1; 3; 9]
        ++ flat_map (fun frame =>
             if frame >? size then [] else [ZstdFrame frame])
             [1024; 2048]
      else []).

(** A printed row reduced to its label, original size and compressed
    size. *)
Definition cell : Type := string * Z * Z.

Definition cells (out : list line) : list cell :=
  flat_map (fun l =>
    match l with
    | Row label size comp _ _ => [(label, size, comp)]
    | Text _ => []
    end) out.

(** The two lines of the start-up notice. *)
Definition is_notice (l : line) : bool :=
  match l with
  | Text s => prefix "Note: zstd" s || prefix "Install with" s
  | Row _ _ _ _ _ => false
  end.

Definition quiet (out : list line) : bool :=
  forallb (fun l => negb (is_notice l)) out.

Section Expected.
Variable zlib_compress : bytes -> Z -> bytes.
Variable lzma_compress : bytes -> bytes.
Variable zstd_compress : Z -> bytes -> bytes.

(** The compressed size a cell reports for a buffer. *)
Definition comp_of (data : bytes) (m : measurement) : Z :=
  match m with
  | ZlibStreaming level => len (zlib_compress data level)
  | ZlibFrame frame level =>
      per_frame_size (fun chunk => zlib_compress chunk level) data frame
  | LzmaStreaming => len (lzma_compress data)
  | ZstdStreaming level => len (zstd_compress level data)
  | ZstdFrame frame => per_frame_size (zstd_compress 3) data frame
  end.

Definition cell_of (size : Z) (data : bytes) (m : measurement) : cell :=
  (label_of m, size, comp_of data m).

End Expected.

(** The buffers of a given size, computed with just enough fuel. *)
Definition editor_bytes (size : Z) : bytes :=
  match editor_loop (Z.to_nat size) size editor_init with
  | Some s => slice_to (ed_data s ++ mul (b " ") (size - len (ed_data s))) size
  | None => []
  end.

Definition terminal_bytes {G : Type} `{RandomGen G} (size : Z) : bytes :=
  match terminal_loop (Z.to_nat size) size [] (seed_state 12345) with
  | Done data _ => slice_to data size
  | _ => []
  end.

(** ** Total-correctness reasoning in the monad

    [wp m s Q]: from state [s], [m] finishes with a value and a state that
    satisfy [Q] (no exception, fuel not exhausted). *)

Definition wp {S A : Type} (m : M S A) (s : S) (Q : A -> S -> Prop) : Prop :=
  match m s with
  | Done a s' => Q a s'
  | _ => False
  end.

(** [emits w cs w']: between [w] and [w'] standard output grew by lines
    whose rows are [cs] and none of which is a notice line. *)
Definition emits {G T : Type} (w : World G T) (cs : list cell) (w' : World G T)
  : Prop :=
  exists new,
    w_stdout w' = w_stdout w ++ new /\ cells new = cs /\ quiet new = true.

Definition prints {G T : Type} (m : M (World G T) unit) (cs : list cell) : Prop :=
  forall w, wp m w (fun _ w' => emits w cs w').

Section ExpectedMatrix.
Context {G : Type} `{RandomGen G}.
Variable zlib_compress : bytes -> Z -> bytes.
Variable lzma_compress : bytes -> bytes.
Variable zstd_compress : Z -> bytes -> bytes.
Variable HAS_ZSTD : bool.

(** The rows of one table. *)
Definition table_cells (size : Z) (data : bytes) : list cell :=
  map (cell_of zlib_compress lzma_compress zstd_compress size data)
    (table_plan HAS_ZSTD size).

(** The rows of the two tables of one size, then of the whole run. *)
Definition size_cells (size : Z) : list cell :=
  table_cells size (terminal_bytes size) ++ table_cells size (editor_bytes size).

Definition matrix_cells : list cell := flat_map size_cells test_sizes.

End ExpectedMatrix.

(** The lines of the notice printed when zstd is missing. *)
Definition notice : list line :=
  [ Text "Note: zstd not available, skipping zstd tests";
    Text ("Install with: pip install zstandard" ++ nl) ].

(** The number of terminal lines a sequence of [print] calls writes: each
    call ends its text with a newline, and the text may hold more. *)
Fixpoint newlines (s : string) : nat :=
  match s with
  | EmptyString => O
  | String c s' => ((if Ascii.eqb c "010" then 1 else 0) + newlines s')%nat
  end.

Definition lines_written (out : list line) : nat :=
  fold_right
    (fun l n =>
       match l with
       | Text s => (1 + newlines s + n)%nat
       | Row _ _ _ _ _ => (1 + n)%nat
       end)
    O out.

Definition is_zstd (m : measurement) : bool :=
  match m with
  | ZstdStreaming _ | ZstdFrame _ => true
  | _ => false
  end.

(** ** A concrete environment

    A small linear congruential generator, a clock that advances by one
    microsecond per reading, and a back end that stores its input behind a
    one-byte tag: an instance of every parameter of the development, at
    which its theorems can be run. *)

Module Sample.

Definition lcg_next (g : Z) : Z := (g * 1103515245 + 12345) mod 2147483648.

#[global, refine] Instance lcg : RandomGen Z | 100 :=
  {| seed_state := fun a => a;
     randbelow := fun n g => ((g / 65536) mod n, lcg_next g);
     random53 := fun g => ((g * 4194304) mod 2 ^ 53, lcg_next g) |}.
Proof.
  - intros n g Hn; cbn [fst]. apply Z.mod_pos_bound; assumption.
  - intros g; cbn [fst]. apply Z.mod_pos_bound; reflexivity.
Defined.

#[global] Instance ticking : Clock Z | 100 :=
  {| clock_read := fun t => (t, t + 1000) |}.

Definition stored (data : bytes) : bytes := x00 :: data.

Definition zlib (data : bytes) (level : Z) : bytes := stored data.
Definition lzma (data : bytes) : bytes := stored data.
Definition zstd (level : Z) (data : bytes) : bytes := stored data.

Definition world0 : World Z Z := mk_World 0 0 [].

End Sample.

(** ** Further vocabulary for the properties of the generators *)

(** A 7-bit byte. *)
Definition is_ascii (x : byte) : bool := (Byte.to_N x <? 128)%N.

(** The integers [a, a+1, ..., a+n-1]. *)
Definition zrange (a n : nat) : list Z := map Z.of_nat (seq a n).

(** Every cursor position on the 50 by 80 screen. *)
Definition screen_positions : list (Z * Z) :=
  flat_map (fun l => map (fun c => (l, c)) (zrange 1 80)) (zrange 1 50).

(** The unit the editor generator emits in its iteration of index [k]
    (from 0). *)
Definition editor_unit (k : nat) : bytes :=
  cursor_move (Z.of_nat k mod 50 + 1) (Z.of_nat k mod 80 + 1) ++ content.

(** ** Further vocabulary for the properties of the matrix *)

(** Every cell the loops of [main] range over, before any guard. *)
Definition sweep : list measurement :=
  map ZlibStreaming [1; 6; 9]
  ++ flat_map (fun frame => map (ZlibFrame frame) [1; 6]) [512; 1024; 2048]
  ++ [LzmaStreaming]
  ++ map ZstdStreaming [1; 3; 9]
  ++ map ZstdFrame [1024; 2048].

(** The guards of [main] on a cell of the sweep: what is not skipped. *)
Definition measured (HAS_ZSTD : bool) (size : Z) (m : measurement) : bool :=
  match m with
  | ZlibStreaming _ => true
  | ZlibFrame frame _ => negb (frame >? size)
  | LzmaStreaming => size <=? 16384
  | ZstdStreaming _ => HAS_ZSTD
  | ZstdFrame frame => HAS_ZSTD && negb (frame >? size)
  end.

(** No string occurs twice. *)
Fixpoint distinct (l : list string) : bool :=
  match l with
  | [] => true
  | s :: l' => negb (existsb (String.eqb s) l') && distinct l'
  end.

(** * Properties *)

(** ** Facts about the built-ins *)

Lemma len_nonneg {A : Type} (l : list A) : 0 <= len l.
Proof. unfold len; lia. Qed.

Lemma len_app {A : Type} (l1 l2 : list A) : len (l1 ++ l2) = len l1 + len l2.
Proof. unfold len; rewrite length_app; lia. Qed.

Lemma len_nil {A : Type} : len (@nil A) = 0.
Proof. reflexivity. Qed.

Lemma len_cons {A : Type} (x : A) (l : list A) : len (x :: l) = 1 + len l.
Proof. unfold len; cbn [length]; lia. Qed.

Lemma len_mul_byte (x : byte) (n : Z) : len (mul [x] n) = Z.max 0 n.
Proof.
  unfold mul, len.
  assert (E : forall k, length (concat (repeat [x] k)) = k).
  { induction k; cbn; [reflexivity | now rewrite IHk]. }
  rewrite E; lia.
Qed.

Lemma clamp_nonneg (n i : Z) : 0 <= n -> 0 <= i -> clamp n i = Z.min i n.
Proof. intros Hn Hi; unfold clamp. destruct (Z.ltb_spec i 0); [lia | reflexivity]. Qed.

Lemma slice_nonneg {A : Type} (data : list A) (lo hi : Z) :
  0 <= lo -> 0 <= hi ->
  slice data lo hi =
  firstn (Z.to_nat (Z.min hi (len data) - Z.min lo (len data)))
    (skipn (Z.to_nat (Z.min lo (len data))) data).
Proof.
  intros Hlo Hhi; unfold slice; cbv zeta.
  rewrite !clamp_nonneg by (try apply len_nonneg; assumption).
  reflexivity.
Qed.

Lemma slice_to_firstn {A : Type} (data : list A) (hi : Z) :
  0 <= hi -> slice_to data hi = firstn (Z.to_nat hi) data.
Proof.
  intros Hhi; unfold slice_to.
  rewrite slice_nonneg by lia.
  pose proof (len_nonneg data) as Hl.
  rewrite (Z.min_l 0 (len data)) by assumption. cbn [Z.to_nat skipn]. rewrite Z.sub_0_r.
  destruct (Z.le_ge_cases hi (len data)) as [Hle | Hge].
  - now rewrite Z.min_l.
  - rewrite Z.min_r by assumption.
    unfold len in *. rewrite Nat2Z.id.
    rewrite !firstn_all2; [reflexivity | lia | lia].
Qed.

Lemma len_slice_to {A : Type} (data : list A) (hi : Z) :
  0 <= hi -> len (slice_to data hi) = Z.min hi (len data).
Proof.
  intros Hhi; rewrite slice_to_firstn by assumption.
  unfold len; rewrite length_firstn; lia.
Qed.

(** ** Rules of the total-correctness predicate *)

Lemma wp_done {S A : Type} (m : M S A) (s : S) (Q : A -> S -> Prop) :
  wp m s Q <-> exists a s', m s = Done a s' /\ Q a s'.
Proof.
  unfold wp; split.
  - destruct (m s) as [a s' | e s' |]; [eauto | contradiction | contradiction].
  - intros (a & s' & E & HQ); now rewrite E.
Qed.

Lemma wp_ret {S A : Type} (a : A) (s : S) (Q : A -> S -> Prop) :
  Q a s -> wp (ret a) s Q.
Proof. exact (fun HQ => HQ). Qed.

Lemma wp_bind {S A B : Type} (m : M S A) (k : A -> M S B) (s : S)
  (Q : B -> S -> Prop) :
  wp m s (fun a s' => wp (k a) s' Q) -> wp (bind m k) s Q.
Proof. unfold wp, bind; destruct (m s); auto. Qed.

Lemma wp_mono {S A : Type} (m : M S A) (s : S) (Q Q' : A -> S -> Prop) :
  wp m s Q -> (forall a s', Q a s' -> Q' a s') -> wp m s Q'.
Proof. unfold wp; destruct (m s); auto. Qed.

Lemma wp_lift_fuel {S A : Type} (r : option A) (a : A) (s : S)
  (Q : A -> S -> Prop) :
  r = Some a -> Q a s -> wp (lift_fuel r) s Q.
Proof. intros -> HQ; exact HQ. Qed.

Lemma wp_getitem {S A : Type} (seq : list A) (i : Z) (s : S)
  (Q : A -> S -> Prop) :
  0 <= i < len seq ->
  (forall x, nth_error seq (Z.to_nat i) = Some x -> Q x s) ->
  wp (getitem seq i) s Q.
Proof.
  intros Hi HQ; unfold wp, getitem; cbv zeta.
  destruct (Z.ltb_spec i 0); [lia |].
  destruct (Z.ltb_spec i 0); [lia |].
  destruct (nth_error seq (Z.to_nat i)) as [x |] eqn:E.
  - now apply HQ.
  - apply nth_error_None in E. unfold len in Hi. lia.
Qed.

Lemma wp_truediv {S : Type} (a c : Q) (s : S) (Q' : Q -> S -> Prop) :
  ~ (c == 0)%Q -> Q' (a / c)%Q s -> wp (truediv a c) s Q'.
Proof.
  intros Hc HQ; unfold wp, truediv.
  destruct (Qeq_bool c 0) eqn:E; [| exact HQ].
  apply Qeq_bool_iff in E; contradiction.
Qed.

(** ** The [random] module keeps its range contracts *)

Section RandomFacts.
Context {G : Type} `{RandomGen G}.

Lemma wp_randint (a c : Z) (g : G) (Q : Z -> G -> Prop) :
  a <= c -> (forall r g', a <= r <= c -> Q r g') ->
  wp (random.randint a c) g Q.
Proof.
  intros Hac HQ; unfold wp, random.randint; cbv zeta.
  destruct (Z.ltb_spec 0 (c + 1 - a)); [| lia].
  pose proof (randbelow_range (c + 1 - a) g ltac:(lia)) as Hr.
  destruct (randbelow (c + 1 - a) g) as [r g']; cbn [fst] in Hr.
  apply HQ; lia.
Qed.

Lemma wp_random (g : G) (Q : Q -> G -> Prop) :
  (forall r g', (0 <= r)%Q -> (r < 1)%Q -> Q r g') -> wp random.random g Q.
Proof.
  intros HQ; unfold wp, random.random.
  pose proof (random53_range g) as Hk.
  destruct (random53 g) as [k g']; cbn [fst] in Hk.
  apply HQ; unfold Qle, Qlt; cbn; change (2 ^ 53) with 9007199254740992 in Hk; lia.
Qed.

Lemma wp_choice {A : Type} (seq : list A) (g : G) (Q : A -> G -> Prop) :
  seq <> [] -> (forall x g', In x seq -> Q x g') -> wp (random.choice seq) g Q.
Proof.
  intros Hne HQ; unfold random.choice.
  assert (Hlen : 0 < len seq).
  { destruct seq; [congruence | rewrite len_cons; pose proof (len_nonneg seq); lia]. }
  destruct (Z.eqb_spec (len seq) 0); [lia |].
  unfold wp.
  pose proof (randbelow_range (len seq) g Hlen) as Hr.
  destruct (randbelow (len seq) g) as [i g']; cbn [fst] in Hr.
  apply (wp_getitem seq i g' Q Hr).
  intros x Hx; apply HQ; eapply nth_error_In; eassumption.
Qed.

Lemma floor_index (r : Q) (n : Z) :
  (0 <= r)%Q -> (r < 1)%Q -> 0 < n -> 0 <= Qfloor (r * inject_Z n) < n.
Proof.
  intros H0 H1 Hn; split.
  - change 0 with (Qfloor 0). apply Qfloor_resp_le.
    apply Qmult_le_0_compat; [assumption |].
    unfold Qle; cbn; lia.
  - rewrite Zlt_Qlt. eapply Qle_lt_trans; [apply Qfloor_le |].
    assert (Hp : (0 < inject_Z n)%Q) by (unfold Qlt; cbn; lia).
    setoid_replace (inject_Z n) with (1 * inject_Z n)%Q at 2 by ring.
    now apply Qmult_lt_compat_r.
Qed.

Lemma wp_choices_from {A : Type} (population : list A) (k : nat) (g : G)
  (Q : list A -> G -> Prop) :
  population <> [] ->
  (forall xs g', length xs = k -> Q xs g') ->
  wp (random.choices_from population k) g Q.
Proof.
  intros Hne; revert g Q.
  assert (Hlen : 0 < len population).
  { destruct population; [congruence |].
    rewrite len_cons; pose proof (len_nonneg population); lia. }
  induction k as [| k IH]; intros g Q HQ; cbn [random.choices_from].
  - apply wp_ret; now apply HQ.
  - apply wp_bind, wp_random; intros r g1 H0 H1.
    apply wp_bind, wp_getitem; [now apply floor_index |]; intros x _.
    apply wp_bind, IH; intros xs g2 Hxs.
    apply wp_ret, HQ; cbn; now rewrite Hxs.
Qed.

Lemma wp_choices {A : Type} (population : list A) (k : Z) (g : G)
  (Q : list A -> G -> Prop) :
  population <> [] -> 0 <= k ->
  (forall xs g', len xs = k -> Q xs g') ->
  wp (random.choices population k) g Q.
Proof.
  intros Hne Hk HQ; unfold random.choices.
  apply wp_choices_from; [assumption |].
  intros xs g' Hxs; apply HQ; unfold len; lia.
Qed.

End RandomFacts.

(** ** The editor generator *)

Lemma len_content : len content = 16.
Proof. reflexivity. Qed.

Lemma editor_body_grows (s : editor_state) :
  len (ed_data s) + 16 <= len (ed_data (editor_body s)).
Proof.
  unfold editor_body; cbn [ed_data].
  rewrite !len_app, len_content.
  pose proof (len_nonneg (cursor_move (ed_line s) (ed_col s))); lia.
Qed.

(** The loop finishes within [size - len(data)] iterations. *)
Lemma editor_loop_terminates (fuel : nat) (size : Z) (s : editor_state) :
  (Z.to_nat (size - len (ed_data s)) <= fuel)%nat ->
  exists s', editor_loop fuel size s = Some s'.
Proof.
  revert s; induction fuel as [| fuel IH]; intros s Hfuel; cbn [editor_loop];
    destruct (Z.ltb_spec (len (ed_data s) + 20) size) as [Hlt | Hge];
    try (eexists; reflexivity).
  - lia.
  - apply IH. pose proof (editor_body_grows s). lia.
Qed.

(** More fuel does not change the result. *)
Lemma editor_loop_fuel_mono (fuel fuel' : nat) (size : Z) (s s' : editor_state) :
  editor_loop fuel size s = Some s' -> (fuel <= fuel')%nat ->
  editor_loop fuel' size s = Some s'.
Proof.
  revert fuel' s; induction fuel as [| fuel IH]; intros fuel' s E Hle;
    cbn [editor_loop] in E;
    destruct fuel' as [| fuel']; cbn [editor_loop];
    destruct (len (ed_data s) + 20 <? size); try assumption; try discriminate.
  - lia.
  - apply IH; [assumption | lia].
Qed.

Lemma wrap_next_on_screen (p : Z * Z) : on_screen p -> on_screen (wrap_next p).
Proof.
  unfold on_screen, wrap_next; cbn [fst snd]; intros [Hl Hc].
  destruct (Z.eqb_spec (fst p) 50), (Z.eqb_spec (snd p) 80); lia.
Qed.

(** On the screen the loop's modular update is the wrapping successor. *)
Lemma editor_body_cursor (s : editor_state) :
  on_screen (cursor s) -> cursor (editor_body s) = wrap_next (cursor s).
Proof.
  unfold on_screen, cursor, wrap_next, editor_body; cbn [fst snd ed_line ed_col].
  intros [Hl Hc]; f_equal.
  - destruct (Z.eqb_spec (ed_line s) 50) as [-> | Hne]; [reflexivity |].
    rewrite Z.mod_small by lia; reflexivity.
  - destruct (Z.eqb_spec (ed_col s) 80) as [-> | Hne]; [reflexivity |].
    rewrite Z.mod_small by lia; reflexivity.
Qed.

Lemma editor_body_data (s : editor_state) :
  ed_data (editor_body s) = ed_data s ++ emitted (cursor s).
Proof.
  unfold editor_body, emitted, cursor; cbn [ed_data fst snd].
  now rewrite app_assoc.
Qed.

Lemma cycle_from_on_screen (n : nat) (p : Z * Z) :
  on_screen p -> Forall on_screen (cycle_from p n).
Proof.
  revert p; induction n as [| n IH]; intros p Hp; cbn [cycle_from];
    constructor; [assumption | apply IH, wrap_next_on_screen, Hp].
Qed.

(** The buffer built by the loop is the emitted cycle of positions. *)
Lemma editor_loop_trace (fuel : nat) (size : Z) (s s' : editor_state) :
  on_screen (cursor s) ->
  editor_loop fuel size s = Some s' ->
  exists n,
    ed_data s' = ed_data s ++ flat_map emitted (cycle_from (cursor s) n) /\
    on_screen (cursor s').
Proof.
  revert s; induction fuel as [| fuel IH]; intros s Hs E; cbn [editor_loop] in E;
    destruct (len (ed_data s) + 20 <? size); try discriminate.
  1, 3: injection E as <-; exists O; cbn; now rewrite app_nil_r.
  apply IH in E.
  - destruct E as (n & Hd & Hc). exists (S n).
    rewrite editor_body_cursor in Hd by assumption.
    rewrite editor_body_data in Hd.
    cbn [cycle_from flat_map]; now rewrite Hd, <- app_assoc.
  - rewrite editor_body_cursor by assumption. now apply wrap_next_on_screen.
Qed.

Lemma editor_init_on_screen : on_screen (cursor editor_init).
Proof. unfold on_screen; cbn; lia. Qed.

Lemma generate_editor_data_eq {S : Type} (fuel : nat) (size : Z) (st : S) :
  (Z.to_nat size <= fuel)%nat ->
  exists s,
    editor_loop fuel size editor_init = Some s /\
    generate_editor_data fuel size st =
    Done (slice_to (ed_data s ++ mul (b " ") (size - len (ed_data s))) size) st.
Proof.
  intros Hfuel.
  destruct (editor_loop_terminates fuel size editor_init) as [s E].
  { cbn [ed_data editor_init]; rewrite len_nil, Z.sub_0_r; assumption. }
  exists s; split; [assumption |].
  unfold generate_editor_data, bind; now rewrite E.
Qed.

Lemma len_pad_truncate (data : bytes) (size : Z) :
  0 <= size ->
  len (slice_to (data ++ mul (b " ") (size - len data)) size) = size.
Proof.
  intros Hsize. rewrite len_slice_to by assumption.
  rewrite len_app. change (b " ") with [" "%byte]. rewrite len_mul_byte.
  pose proof (len_nonneg data); lia.
Qed.

(** ** The terminal generator *)

Section TerminalFacts.
Context {G : Type} `{RandomGen G}.

Lemma nonempty_in (xs : list bytes) (x : bytes) :
  forallb (fun y => 0 <? len y) xs = true -> In x xs -> 0 < len x.
Proof.
  intros Hall Hin. rewrite forallb_forall in Hall.
  specialize (Hall x Hin). now apply Z.ltb_lt.
Qed.

(** Every iteration appends at least one byte. *)
Lemma wp_terminal_body (data : bytes) (g : G) (Q : bytes -> G -> Prop) :
  (forall data' g', len data < len data' -> Q data' g') ->
  wp (terminal_body data) g Q.
Proof.
  intros HQ; unfold terminal_body.
  apply wp_bind, wp_randint; [lia |]; intros choice g1 Hchoice.
  destruct (choice <=? 2).
  { apply wp_bind, wp_choice; [discriminate |]; intros e g2 He.
    apply wp_ret, HQ. rewrite len_app.
    pose proof (nonempty_in escapes e eq_refl He); lia. }
  destruct (choice <=? 4).
  { apply wp_bind, wp_randint; [lia |]; intros n g2 Hn.
    apply wp_ret, HQ. rewrite len_app.
    change (b " ") with [" "%byte]; rewrite len_mul_byte; lia. }
  destruct (choice =? 5).
  { apply wp_bind, wp_random; intros r g2 _ _.
    apply wp_ret, HQ.
    destruct (Qle_bool r (1 # 2)); rewrite !len_app, ?len_cons, ?len_nil; lia. }
  destruct (choice <=? 7).
  { apply wp_bind, wp_choice; [discriminate |]; intros p g2 Hp.
    apply wp_ret, HQ. rewrite len_app.
    pose proof (nonempty_in patterns p eq_refl Hp); lia. }
  destruct (choice <=? 9).
  { apply wp_bind, wp_randint; [lia |]; intros k g2 Hk.
    apply wp_bind, wp_choices; [discriminate | lia |]; intros cs g3 Hcs.
    apply wp_ret, HQ. rewrite len_app; lia. }
  apply wp_ret, HQ. rewrite len_app, len_cons, len_nil; lia.
Qed.

(** The loop finishes within [size - len(data)] iterations, with at least
    [size] bytes. *)
Lemma wp_terminal_loop (fuel : nat) (size : Z) (data : bytes) (g : G)
  (Q : bytes -> G -> Prop) :
  (Z.to_nat (size - len data) <= fuel)%nat ->
  (forall data' g', size <= len data' -> Q data' g') ->
  wp (terminal_loop fuel size data) g Q.
Proof.
  revert data g; induction fuel as [| fuel IH]; intros data g Hfuel HQ;
    cbn [terminal_loop];
    destruct (Z.ltb_spec (len data) size) as [Hlt | Hge];
    try (apply wp_ret, HQ; lia).
  - lia.
  - apply wp_bind, wp_terminal_body; intros data' g' Hgrow.
    apply IH; [lia | assumption].
Qed.

(** More fuel does not change the outcome of a finished loop. *)
Lemma terminal_loop_fuel_mono (fuel fuel' : nat) (size : Z) (data d : bytes)
  (g g' : G) :
  terminal_loop fuel size data g = Done d g' -> (fuel <= fuel')%nat ->
  terminal_loop fuel' size data g = Done d g'.
Proof.
  revert fuel' data g; induction fuel as [| fuel IH]; intros fuel' data g E Hle;
    cbn [terminal_loop] in E;
    destruct fuel' as [| fuel']; cbn [terminal_loop];
    destruct (len data <? size); try assumption; try discriminate.
  - lia.
  - unfold bind in *. destruct (terminal_body data g) as [d1 g1 | |];
      try discriminate.
    apply IH; [assumption | lia].
Qed.

(** The generator starts from the seeded state whatever the state of the
    global generator was. *)
Lemma generate_terminal_data_reseeds (fuel : nat) (size : Z) (g : G) :
  generate_terminal_data fuel size g =
  (data <- terminal_loop fuel size [] ;; ret (slice_to data size))
    (seed_state 12345).
Proof. reflexivity. Qed.

Lemma generate_terminal_data_done (fuel : nat) (size : Z) (g : G) :
  (Z.to_nat size <= fuel)%nat ->
  exists data g',
    terminal_loop fuel size [] (seed_state 12345) = Done data g' /\
    size <= len data /\
    generate_terminal_data fuel size g = Done (slice_to data size) g'.
Proof.
  intros Hfuel.
  assert (W : wp (terminal_loop fuel size []) (seed_state 12345)
                (fun data _ => size <= len data)).
  { apply wp_terminal_loop; [rewrite len_nil, Z.sub_0_r; assumption | auto]. }
  apply wp_done in W; destruct W as (data & g' & E & Hlen).
  exists data, g'; repeat split; try assumption.
  rewrite generate_terminal_data_reseeds; unfold bind; now rewrite E.
Qed.

End TerminalFacts.

(** ** Per-frame framing *)

Lemma ceil_div_gt (a c k : Z) :
  0 < c -> (k < ceil_div a c <-> k * c < a).
Proof.
  intros Hc; unfold ceil_div; split; intros Hk.
  - assert (Hd : (k + 1) <= (a + c - 1) / c) by lia.
    pose proof (Z.mul_div_le (a + c - 1) c Hc) as Hm. nia.
  - enough ((k + 1) <= (a + c - 1) / c) by lia.
    apply Z.div_le_lower_bound; [assumption | nia].
Qed.

Lemma ceil_div_nonneg (a c : Z) : 0 <= a -> 0 < c -> 0 <= ceil_div a c.
Proof.
  intros Ha Hc; unfold ceil_div. apply Z.div_pos; lia.
Qed.

(** The loop adds up the cost of the chunks it visits, whatever the
    compressor. *)
Lemma frame_loop_visited (compress : bytes -> bytes) (fuel : nat)
  (data : bytes) (frame_size total offset : Z) :
  frame_loop compress fuel data frame_size total offset =
  option_map
    (fun cs => total + sum (map (fun chunk => 4 + len (compress chunk)) cs))
    (visited_chunks fuel data frame_size offset).
Proof.
  revert total offset; induction fuel as [| fuel IH]; intros total offset;
    cbn [frame_loop visited_chunks];
    destruct (offset <? len data); cbn [option_map map sum fold_right];
    try reflexivity; try (f_equal; lia).
  rewrite IH.
  destruct (visited_chunks fuel data frame_size (offset + frame_size));
    cbn [option_map map sum fold_right]; [f_equal; unfold sum; lia | reflexivity].
Qed.

(** With a positive frame size the loop visits the chunks of index
    [k, k+1, ...] and then stops. *)
Lemma visited_chunks_from (fuel : nat) (data : bytes) (frame_size : Z) (k m : nat) :
  0 < frame_size ->
  Z.of_nat (k + m) = ceil_div (len data) frame_size ->
  (m <= fuel)%nat ->
  visited_chunks fuel data frame_size (Z.of_nat k * frame_size) =
  Some (map (nth_chunk data frame_size) (seq k m)).
Proof.
  intros Hfs; revert k fuel; induction m as [| m IH]; intros k fuel Hn Hfuel.
  - assert (Hk : ~ Z.of_nat k * frame_size < len data).
    { rewrite <- ceil_div_gt by assumption. lia. }
    destruct fuel; cbn [visited_chunks];
      destruct (Z.ltb_spec (Z.of_nat k * frame_size) (len data)); try lia;
      reflexivity.
  - assert (Hk : Z.of_nat k * frame_size < len data).
    { rewrite <- ceil_div_gt by assumption. lia. }
    destruct fuel as [| fuel]; [lia |]. cbn [visited_chunks].
    destruct (Z.ltb_spec (Z.of_nat k * frame_size) (len data)); [| lia].
    cbv zeta.
    replace (Z.of_nat k * frame_size + frame_size)
      with (Z.of_nat (S k) * frame_size) by lia.
    rewrite IH by lia. cbn [option_map seq map]. do 2 f_equal.
    unfold nth_chunk. f_equal; lia.
Qed.

Lemma ceil_div_le_len (data : bytes) (frame_size : Z) :
  0 < frame_size -> ceil_div (len data) frame_size <= len data.
Proof.
  intros Hfs. pose proof (len_nonneg data) as Hl.
  destruct (Z.le_gt_cases (ceil_div (len data) frame_size) (len data)) as [|Hgt];
    [assumption |].
  apply ceil_div_gt in Hgt; [nia | assumption].
Qed.

(** Enough fuel: one unit per byte of input. *)
Lemma visited_chunks_all (fuel : nat) (data : bytes) (frame_size : Z) :
  0 < frame_size -> (Z.to_nat (len data) <= fuel)%nat ->
  visited_chunks fuel data frame_size 0 = Some (chunks data frame_size).
Proof.
  intros Hfs Hfuel.
  pose proof (ceil_div_le_len data frame_size Hfs) as Hle.
  pose proof (ceil_div_nonneg (len data) frame_size (len_nonneg data) Hfs) as H0.
  change 0 with (Z.of_nat 0 * frame_size) at 1.
  apply visited_chunks_from; [assumption | cbn [Nat.add]; lia | lia].
Qed.

Lemma frame_loop_total (compress : bytes -> bytes) (fuel : nat)
  (data : bytes) (frame_size : Z) :
  0 < frame_size -> (Z.to_nat (len data) <= fuel)%nat ->
  frame_loop compress fuel data frame_size 0 0 =
  Some (per_frame_size compress data frame_size).
Proof.
  intros Hfs Hfuel. rewrite frame_loop_visited, visited_chunks_all by assumption.
  reflexivity.
Qed.

Lemma nth_chunk_firstn (data : bytes) (frame_size : Z) (k : nat) :
  0 < frame_size ->
  nth_chunk data frame_size k =
  firstn (Z.to_nat frame_size) (skipn (Z.to_nat (Z.of_nat k * frame_size)) data).
Proof.
  intros Hfs; unfold nth_chunk.
  pose proof (len_nonneg data) as Hl.
  rewrite slice_nonneg by nia.
  destruct (Z.le_gt_cases (len data) (Z.of_nat k * frame_size)) as [Hout | Hin].
  - rewrite (Z.min_r (Z.of_nat k * frame_size)) by assumption.
    rewrite !skipn_all2 by (unfold len in *; lia).
    now rewrite !firstn_nil.
  - rewrite (Z.min_l (Z.of_nat k * frame_size)) by lia.
    destruct (Z.le_gt_cases ((Z.of_nat k + 1) * frame_size) (len data)) as [Hle | Hgt].
    + rewrite Z.min_l by assumption. f_equal; lia.
    + rewrite Z.min_r by lia.
      rewrite !firstn_all2; [reflexivity | |];
        rewrite length_skipn; unfold len in *; lia.
Qed.

Lemma len_nth_chunk (data : bytes) (frame_size : Z) (k : nat) :
  0 < frame_size -> Z.of_nat k * frame_size < len data ->
  len (nth_chunk data frame_size k) =
  Z.min frame_size (len data - Z.of_nat k * frame_size).
Proof.
  intros Hfs Hin. rewrite nth_chunk_firstn by assumption.
  unfold len in *. rewrite length_firstn, length_skipn. lia.
Qed.

Lemma concat_chunks_from (data : bytes) (frame_size : Z) (k m : nat) :
  0 < frame_size ->
  Z.of_nat (k + m) = ceil_div (len data) frame_size ->
  concat (map (nth_chunk data frame_size) (seq k m)) =
  skipn (Z.to_nat (Z.of_nat k * frame_size)) data.
Proof.
  intros Hfs; revert k; induction m as [| m IH]; intros k Hn.
  - assert (Hk : ~ Z.of_nat k * frame_size < len data).
    { rewrite <- ceil_div_gt by assumption. lia. }
    cbn [seq map concat]. rewrite skipn_all2; [reflexivity |].
    unfold len in *; lia.
  - cbn [seq map concat]. rewrite IH by lia.
    rewrite nth_chunk_firstn by assumption.
    replace (Z.to_nat (Z.of_nat (S k) * frame_size))
      with (Z.to_nat frame_size + Z.to_nat (Z.of_nat k * frame_size))%nat by nia.
    rewrite <- skipn_skipn. apply firstn_skipn.
Qed.

(** The chunks concatenate back to the buffer. *)
Lemma concat_chunks (data : bytes) (frame_size : Z) :
  0 < frame_size -> concat (chunks data frame_size) = data.
Proof.
  intros Hfs; unfold chunks.
  pose proof (ceil_div_nonneg (len data) frame_size (len_nonneg data) Hfs) as H0.
  rewrite concat_chunks_from by (cbn [Nat.add]; lia || assumption).
  reflexivity.
Qed.

Lemma nth_error_chunks (data : bytes) (frame_size : Z) (k : nat) (c : bytes) :
  nth_error (chunks data frame_size) k = Some c <->
  Z.of_nat k < ceil_div (len data) frame_size /\ c = nth_chunk data frame_size k.
Proof.
  unfold chunks. rewrite nth_error_map, nth_error_seq.
  destruct (Nat.ltb_spec k (Z.to_nat (ceil_div (len data) frame_size)));
    cbn [option_map Nat.add]; split.
  - intros [= <-]; split; [lia | reflexivity].
  - intros [_ ->]; reflexivity.
  - discriminate.
  - intros [Hk _]; lia.
Qed.

(** A buffer as long as the frame is a single chunk. *)
Lemma chunks_whole (data : bytes) :
  data <> [] -> chunks data (len data) = [data].
Proof.
  intros Hne.
  assert (Hl : 0 < len data).
  { destruct data; [congruence |]. rewrite len_cons.
    pose proof (len_nonneg data); lia. }
  unfold chunks.
  assert (E : ceil_div (len data) (len data) = 1).
  { unfold ceil_div. symmetry. apply (Z.div_unique _ _ 1 (len data - 1)); lia. }
  rewrite E. change (Z.to_nat 1) with 1%nat. cbn [seq map]. f_equal.
  rewrite nth_chunk_firstn by assumption.
  cbn [Z.of_nat Z.mul Z.to_nat skipn].
  unfold len; rewrite Nat2Z.id. apply firstn_all.
Qed.

(** ** The process: clock, output and measurements *)

Section ProcessFacts.
Context {G T : Type} `{RandomGen G} `{Clock T}.
Variable zlib_compress : bytes -> Z -> bytes.
Variable lzma_compress : bytes -> bytes.
Variable zstd_compress : Z -> bytes -> bytes.

Local Abbreviation world := (World G T).

Lemma cells_app (o1 o2 : list line) : cells (o1 ++ o2) = cells o1 ++ cells o2.
Proof. unfold cells; apply flat_map_app. Qed.

Lemma quiet_app (o1 o2 : list line) : quiet (o1 ++ o2) = quiet o1 && quiet o2.
Proof. unfold quiet; apply forallb_app. Qed.

Lemma emits_refl (w : world) : emits w [] w.
Proof. exists []; rewrite app_nil_r; auto. Qed.

Lemma emits_trans (w w1 w2 : world) (c1 c2 : list cell) :
  emits w c1 w1 -> emits w1 c2 w2 -> emits w (c1 ++ c2) w2.
Proof.
  intros (n1 & E1 & C1 & Q1) (n2 & E2 & C2 & Q2). exists (n1 ++ n2).
  rewrite E2, E1, app_assoc, cells_app, quiet_app, C1, C2, Q1, Q2; auto.
Qed.

Lemma emits_same (w w1 w2 : world) (cs : list cell) :
  w_stdout w1 = w_stdout w -> emits w1 cs w2 -> emits w cs w2.
Proof. intros E (n & E2 & C & Q); exists n; rewrite E2, E; auto. Qed.

Lemma prints_eq (m : M world unit) (cs cs' : list cell) :
  prints m cs -> cs = cs' -> prints m cs'.
Proof. now intros Hm <-. Qed.

Lemma prints_if (c : bool) (m1 m2 : M world unit) (c1 c2 : list cell) :
  (c = true -> prints m1 c1) -> (c = false -> prints m2 c2) ->
  prints (if c then m1 else m2) (if c then c1 else c2).
Proof. destruct c; auto. Qed.

Lemma prints_ret : prints (@ret world unit tt) [].
Proof. intros w; apply wp_ret, emits_refl. Qed.

Lemma prints_seq (m k : M world unit) (c1 c2 : list cell) :
  prints m c1 -> prints k c2 -> prints (m ;; k) (c1 ++ c2).
Proof.
  intros Hm Hk w. apply wp_bind. eapply wp_mono; [apply Hm |].
  intros [] w1 E1; cbv beta. eapply wp_mono; [apply Hk |].
  intros [] w2 E2; cbv beta. eapply emits_trans; eassumption.
Qed.

Lemma prints_text (s : string) :
  is_notice (Text s) = false -> prints (print (Text s) : M world unit) [].
Proof.
  intros Hs w. unfold wp, print. exists [Text s]; cbn [w_stdout].
  repeat split. unfold quiet; cbn [forallb]. now rewrite Hs.
Qed.

Lemma prints_for_each {A : Type} (xs : list A) (body : A -> M world unit)
  (f : A -> list cell) :
  (forall x, In x xs -> prints (body x) (f x)) ->
  prints (for_each xs body) (flat_map f xs).
Proof.
  induction xs as [| x xs IH]; intros Hbody; cbn [for_each flat_map].
  - apply prints_ret.
  - apply prints_seq; [apply Hbody; now left |].
    apply IH; intros y Hy; apply Hbody; now right.
Qed.

Lemma wp_perf_counter_ns (w : world) (Q : Z -> world -> Prop) :
  (forall n w', w_stdout w' = w_stdout w -> w_rng w' = w_rng w -> Q n w') ->
  wp perf_counter_ns w Q.
Proof.
  intros HQ; unfold wp, perf_counter_ns.
  destruct (clock_read (w_clock w)) as [n t]. now apply HQ.
Qed.

(** The guarded throughput never raises. *)
Lemma wp_inline_mbps {S : Type} (size ns : Z) (s : S) (Q : Q -> S -> Prop) :
  (forall mbps, Q mbps s) -> wp (inline_mbps size ns) s Q.
Proof.
  intros HQ; unfold inline_mbps.
  destruct (Z.gtb_spec ns 0) as [Hpos | Hle]; [| apply wp_ret, HQ].
  apply wp_bind, wp_truediv; [discriminate |].
  apply wp_bind, wp_truediv; [discriminate |].
  apply wp_bind, wp_truediv; [discriminate |].
  apply wp_truediv; [| apply HQ].
  unfold Qeq, Qdiv, Qmult, Qinv, inject_Z; cbn. lia.
Qed.

Lemma prints_report (label : string) (size comp ns : Z) :
  size <> 0 ->
  prints (report label size comp ns : M world unit) [(label, size, comp)].
Proof.
  intros Hsize w; unfold report.
  apply wp_bind, wp_truediv.
  { unfold Qeq, inject_Z; cbn; lia. }
  apply wp_bind, wp_inline_mbps; intros mbps.
  unfold wp, print.
  exists [Row label size comp (inject_Z comp / inject_Z size * 100) mbps].
  cbn [w_stdout]; repeat split.
Qed.

(** A measurement followed by its report prints one row. *)
Lemma prints_measure (m : M world (Z * Z)) (label : string) (size comp : Z) :
  (forall w, wp m w (fun r w' => fst r = comp /\ w_stdout w' = w_stdout w)) ->
  size <> 0 ->
  prints ('(comp, ns) <- m ;; report label size comp ns) [(label, size, comp)].
Proof.
  intros Hm Hsize w. apply wp_bind. eapply wp_mono; [apply Hm |].
  intros [c ns] w1 [<- Eout]; cbn [fst].
  eapply wp_mono; [apply (prints_report label size c ns Hsize) |].
  intros [] w2 E2; cbv beta. eapply emits_same; eassumption.
Qed.

Lemma wp_compress_streaming_zlib (data : bytes) (level : Z) (w : world) :
  wp (compress_streaming_zlib zlib_compress data level) w
    (fun r w' => fst r = len (zlib_compress data level) /\
                 w_stdout w' = w_stdout w).
Proof.
  unfold compress_streaming_zlib.
  apply wp_bind, wp_perf_counter_ns; intros start w1 E1 _.
  apply wp_bind, wp_perf_counter_ns; intros stop w2 E2 _.
  apply wp_ret; cbn [fst]; split; congruence.
Qed.

Lemma wp_compress_streaming_lzma (data : bytes) (w : world) :
  wp (compress_streaming_lzma lzma_compress data) w
    (fun r w' => fst r = len (lzma_compress data) /\ w_stdout w' = w_stdout w).
Proof.
  unfold compress_streaming_lzma.
  apply wp_bind, wp_perf_counter_ns; intros start w1 E1 _.
  apply wp_bind, wp_perf_counter_ns; intros stop w2 E2 _.
  apply wp_ret; cbn [fst]; split; congruence.
Qed.

Lemma wp_compress_streaming_zstd (data : bytes) (level : Z) (w : world) :
  wp (compress_streaming_zstd zstd_compress true data level) w
    (fun r w' => fst r = len (zstd_compress level data) /\
                 w_stdout w' = w_stdout w).
Proof.
  unfold compress_streaming_zstd; cbn [negb].
  apply wp_bind, wp_perf_counter_ns; intros start w1 E1 _.
  apply wp_bind, wp_perf_counter_ns; intros stop w2 E2 _.
  apply wp_ret; cbn [fst]; split; congruence.
Qed.

Lemma wp_compress_per_frame_zlib_total (fuel : nat) (data : bytes)
  (frame_size level total : Z) (w : world) :
  frame_loop (fun chunk => zlib_compress chunk level) fuel data frame_size 0 0
  = Some total ->
  wp (compress_per_frame_zlib zlib_compress fuel data frame_size level) w
    (fun r w' => fst r = total /\ w_stdout w' = w_stdout w).
Proof.
  intros Hloop; unfold compress_per_frame_zlib.
  apply wp_bind, wp_perf_counter_ns; intros start w1 E1 _.
  apply wp_bind.
  eapply wp_lift_fuel; [exact Hloop |].
  apply wp_bind, wp_perf_counter_ns; intros stop w2 E2 _.
  apply wp_ret; cbn [fst]; split; congruence.
Qed.

Lemma wp_compress_per_frame_zlib (fuel : nat) (data : bytes)
  (frame_size level : Z) (w : world) :
  0 < frame_size -> (Z.to_nat (len data) <= fuel)%nat ->
  wp (compress_per_frame_zlib zlib_compress fuel data frame_size level) w
    (fun r w' =>
       fst r = per_frame_size (fun chunk => zlib_compress chunk level)
                 data frame_size /\
       w_stdout w' = w_stdout w).
Proof.
  intros Hfs Hfuel. apply wp_compress_per_frame_zlib_total.
  now apply frame_loop_total.
Qed.

Lemma wp_compress_per_frame_zstd (fuel : nat) (data : bytes)
  (frame_size level : Z) (w : world) :
  0 < frame_size -> (Z.to_nat (len data) <= fuel)%nat ->
  wp (compress_per_frame_zstd zstd_compress true fuel data frame_size level) w
    (fun r w' =>
       fst r = per_frame_size (zstd_compress level) data frame_size /\
       w_stdout w' = w_stdout w).
Proof.
  intros Hfs Hfuel; unfold compress_per_frame_zstd; cbn [negb].
  apply wp_bind, wp_perf_counter_ns; intros start w1 E1 _.
  apply wp_bind.
  eapply wp_lift_fuel; [now apply frame_loop_total |].
  apply wp_bind, wp_perf_counter_ns; intros stop w2 E2 _.
  apply wp_ret; cbn [fst]; split; congruence.
Qed.

(** Without the back end both zstd functions return [(0, 0)] at once. *)
Lemma compress_zstd_unavailable (fuel : nat) (data : bytes)
  (frame_size level : Z) (w : world) :
  compress_streaming_zstd zstd_compress false data level w = Done (0, 0) w /\
  compress_per_frame_zstd zstd_compress false fuel data frame_size level w
  = Done (0, 0) w.
Proof. split; reflexivity. Qed.

End ProcessFacts.

(** ** The generators return the buffers [terminal_bytes] and
       [editor_bytes] *)

Lemma generate_editor_data_bytes {S : Type} (fuel : nat) (size : Z) (st : S) :
  (Z.to_nat size <= fuel)%nat ->
  generate_editor_data fuel size st = Done (editor_bytes size) st.
Proof.
  intros Hfuel.
  destruct (editor_loop_terminates (Z.to_nat size) size editor_init) as [s E].
  { cbn [ed_data editor_init]; rewrite len_nil, Z.sub_0_r; lia. }
  unfold editor_bytes; rewrite E.
  unfold generate_editor_data, bind.
  now rewrite (editor_loop_fuel_mono _ fuel _ _ _ E Hfuel).
Qed.

Lemma len_editor_bytes (size : Z) : 0 <= size -> len (editor_bytes size) = size.
Proof.
  intros Hsize; unfold editor_bytes.
  destruct (editor_loop_terminates (Z.to_nat size) size editor_init) as [s E].
  { cbn [ed_data editor_init]; rewrite len_nil, Z.sub_0_r; lia. }
  rewrite E. now apply len_pad_truncate.
Qed.

Section GeneratorValues.
Context {G : Type} `{RandomGen G}.

Lemma generate_terminal_data_bytes (fuel : nat) (size : Z) (g : G) :
  (Z.to_nat size <= fuel)%nat ->
  exists g', generate_terminal_data fuel size g = Done (terminal_bytes size) g'.
Proof.
  intros Hfuel.
  destruct (generate_terminal_data_done (Z.to_nat size) size g (le_n _))
    as (data & g' & E & _ & _).
  exists g'. unfold terminal_bytes; rewrite E.
  rewrite generate_terminal_data_reseeds; unfold bind.
  now rewrite (terminal_loop_fuel_mono _ fuel _ _ _ _ _ E Hfuel).
Qed.

Lemma len_terminal_bytes (size : Z) : 0 <= size -> len (terminal_bytes size) = size.
Proof.
  intros Hsize.
  destruct (generate_terminal_data_done (Z.to_nat size) size (seed_state 0) (le_n _))
    as (data & g' & E & Hlen & _).
  unfold terminal_bytes; rewrite E.
  rewrite len_slice_to by assumption. lia.
Qed.

End GeneratorValues.

(** ** The rows printed by [main] *)

Section MainFacts.
Context {G T : Type} `{RandomGen G} `{Clock T}.
Variable zlib_compress : bytes -> Z -> bytes.
Variable lzma_compress : bytes -> bytes.
Variable zstd_compress : Z -> bytes -> bytes.
Variable HAS_ZSTD : bool.

Local Abbreviation world := (World G T).
Local Abbreviation cell_at := (cell_of zlib_compress lzma_compress zstd_compress).

Lemma prints_zlib_frames (fuel : nat) (size : Z) (data : bytes) (frame : Z) :
  0 < frame -> size <> 0 -> (Z.to_nat (len data) <= fuel)%nat ->
  prints
    (if frame >? size then ret tt
     else for_each [1; 6] (fun level =>
       '(comp, ns) <- compress_per_frame_zlib zlib_compress fuel data frame level ;;
       report (label_zlib_frame frame level) size comp ns) : M world unit)
    (map (cell_at size data)
       (if frame >? size then [] else map (ZlibFrame frame) [1; 6])).
Proof.
  intros Hframe Hsize Hfuel. destruct (frame >? size); [apply prints_ret |].
  eapply prints_eq.
  - apply (prints_for_each _ _
             (fun level => [cell_at size data (ZlibFrame frame level)])).
    intros level _. apply prints_measure; [| assumption].
    intros w. now apply wp_compress_per_frame_zlib.
  - reflexivity.
Qed.

Lemma prints_zstd_frames (fuel : nat) (size : Z) (data : bytes) (frame : Z) :
  0 < frame -> size <> 0 -> (Z.to_nat (len data) <= fuel)%nat ->
  prints
    (if frame >? size then ret tt
     else
       '(comp, ns) <- compress_per_frame_zstd zstd_compress true fuel data frame 3 ;;
       report (label_zstd_frame frame) size comp ns : M world unit)
    (map (cell_at size data) (if frame >? size then [] else [ZstdFrame frame])).
Proof.
  intros Hframe Hsize Hfuel. destruct (frame >? size); [apply prints_ret |].
  apply prints_measure; [| assumption].
  intros w. now apply wp_compress_per_frame_zstd.
Qed.

(** One table prints the rows of its plan, in order. *)
Lemma prints_main_table (fuel : nat) (size : Z) (name : string) (data : bytes) :
  size <> 0 -> (Z.to_nat (len data) <= fuel)%nat ->
  prints
    (main_table zlib_compress lzma_compress zstd_compress HAS_ZSTD fuel size
       (name, data) : M world unit)
    (table_cells zlib_compress lzma_compress zstd_compress HAS_ZSTD size data).
Proof.
  intros Hsize Hfuel. unfold main_table. eapply prints_eq.
  - apply (prints_seq _ _ []); [now apply prints_text |].
    apply (prints_seq _ _ []); [now apply prints_text |].
    apply (prints_seq _ _ []); [now apply prints_text |].
    apply prints_seq.
    { apply (prints_for_each _ _
               (fun level => [cell_at size data (ZlibStreaming level)])).
      intros level _. apply prints_measure; [| assumption].
      intros w. apply wp_compress_streaming_zlib. }
    apply prints_seq.
    { apply (prints_for_each _ _
               (fun frame => map (cell_at size data)
                  (if frame >? size then [] else map (ZlibFrame frame) [1; 6]))).
      intros frame Hin. apply prints_zlib_frames; try assumption.
      cbn [In] in Hin; lia. }
    apply prints_seq.
    { apply (prints_if _ _ _ [cell_at size data LzmaStreaming] []);
        intros _; [| apply prints_ret].
      apply prints_measure; [| assumption].
      intros w. apply wp_compress_streaming_lzma. }
    apply prints_if; intros Ezstd; [| apply prints_ret].
    rewrite Ezstd. apply prints_seq.
    { apply (prints_for_each _ _
               (fun level => [cell_at size data (ZstdStreaming level)])).
      intros level _. apply prints_measure; [| assumption].
      intros w. apply wp_compress_streaming_zstd. }
    apply (prints_for_each _ _
             (fun frame => map (cell_at size data)
                (if frame >? size then [] else [ZstdFrame frame]))).
    intros frame Hin. apply prints_zstd_frames; try assumption.
    cbn [In] in Hin; lia.
  - unfold table_cells, table_plan. rewrite !map_app. cbn [app flat_map map].
    rewrite !app_nil_r.
    destruct (size <=? 16384), HAS_ZSTD; cbn [map app]; rewrite ?map_app;
      reflexivity.
Qed.

Lemma wp_with_random_terminal (fuel : nat) (size : Z) (w : world) :
  (Z.to_nat size <= fuel)%nat ->
  wp (with_random (generate_terminal_data fuel size)) w
    (fun data w' => data = terminal_bytes size /\ w_stdout w' = w_stdout w).
Proof.
  intros Hfuel.
  destruct (generate_terminal_data_bytes fuel size (w_rng w) Hfuel) as [g' E].
  unfold wp, with_random, zoom. rewrite E. split; reflexivity.
Qed.

(** The pass for one size prints its two tables. *)
Lemma prints_main_size (fuel : nat) (size : Z) :
  0 < size -> (Z.to_nat size <= fuel)%nat ->
  prints
    (main_size zlib_compress lzma_compress zstd_compress HAS_ZSTD fuel size)
    (size_cells zlib_compress lzma_compress zstd_compress HAS_ZSTD size).
Proof.
  intros Hsize Hfuel. unfold main_size, size_cells.
  apply (prints_seq _ _ []); [now apply prints_text |].
  apply (prints_seq _ _ []); [now apply prints_text |].
  apply (prints_seq _ _ []); [now apply prints_text |].
  intros w. apply wp_bind.
  eapply wp_mono; [now apply wp_with_random_terminal |].
  intros terminal_data w1 [-> E1]; cbv beta.
  apply wp_bind. unfold wp at 1.
  rewrite generate_editor_data_bytes by assumption.
  eapply wp_mono.
  - cbn [for_each].
    apply prints_seq; [| apply prints_seq; [| apply prints_ret]];
      apply prints_main_table; try lia.
    + rewrite len_terminal_bytes; lia.
    + rewrite len_editor_bytes; lia.
  - intros [] w2 E2; cbv beta. rewrite app_nil_r in E2.
    eapply emits_same; eassumption.
Qed.

(** The whole run prints the matrix. *)
Lemma prints_main (fuel : nat) :
  65536 <= Z.of_nat fuel ->
  prints (main zlib_compress lzma_compress zstd_compress HAS_ZSTD fuel)
    (matrix_cells zlib_compress lzma_compress zstd_compress HAS_ZSTD).
Proof.
  intros Hfuel. unfold main, matrix_cells; cbv zeta.
  apply (prints_seq _ _ []); [now apply prints_text |].
  apply (prints_seq _ _ []); [now apply prints_text |].
  apply (prints_seq _ _ []); [now apply prints_text |].
  eapply prints_eq.
  - apply prints_seq.
    + apply prints_for_each. intros size Hin. apply prints_main_size.
      * unfold test_sizes in Hin; cbn [In] in Hin; lia.
      * unfold test_sizes in Hin; cbn [In] in Hin.
        assert (size <= 65536) by lia. lia.
    + apply (prints_seq _ _ []); [now apply prints_text |].
      apply (prints_seq _ _ []); [now apply prints_text |].
      apply (prints_seq _ _ []); [now apply prints_text |].
      now apply prints_text.
  - now rewrite app_nil_r.
Qed.

End MainFacts.

(** ** The skip rules of the matrix *)

(** Which cells a table has: the declarative reading of the loops and
    guards of [main]. *)
Lemma in_table_plan (HAS_ZSTD : bool) (size : Z) (m : measurement) :
  In m (table_plan HAS_ZSTD size) <->
  match m with
  | ZlibStreaming level => In level [1; 6; 9]
  | ZlibFrame frame level =>
      In frame [512; 1024; 2048] /\ frame <= size /\ In level [1; 6]
  | LzmaStreaming => size <= 16384
  | ZstdStreaming level => HAS_ZSTD = true /\ In level [1; 3; 9]
  | ZstdFrame frame => HAS_ZSTD = true /\ In frame [1024; 2048] /\ frame <= size
  end.
Proof.
  unfold table_plan; cbn [flat_map map]; split.
  - destruct (Z.gtb_spec 512 size), (Z.gtb_spec 1024 size),
      (Z.gtb_spec 2048 size), (Z.leb_spec size 16384), HAS_ZSTD;
      cbn [app In]; intros Hin;
      repeat (destruct Hin as [<- | Hin]); try contradiction;
      cbn [In]; intuition lia.
  - destruct m; cbn [In]; intros Hm;
      destruct (Z.gtb_spec 512 size), (Z.gtb_spec 1024 size),
        (Z.gtb_spec 2048 size), (Z.leb_spec size 16384), HAS_ZSTD;
      cbn [app In];
      intuition (subst; try discriminate; try lia; auto 20).
Qed.

(** ** Row labels tell the cells apart *)

Lemma label_prefix_zstd (m : measurement) :
  prefix "zstd" (label_of m) = is_zstd m.
Proof. destruct m; reflexivity. Qed.

Lemma label_lzma_inj (m : measurement) :
  label_of m = label_lzma_streaming -> m = LzmaStreaming.
Proof. destruct m; [discriminate | discriminate | reflexivity | discriminate | discriminate]. Qed.

(** Among the cells of a plan, the label of a per-frame zlib row names its
    frame size and level. *)
Lemma label_zlib_frame_inj (HAS_ZSTD : bool) (size : Z) (m : measurement)
  (frame level : Z) :
  In m (table_plan HAS_ZSTD size) ->
  In frame [512; 1024; 2048] -> In level [1; 6] ->
  label_of m = label_zlib_frame frame level -> m = ZlibFrame frame level.
Proof.
  intros Hm Hframe Hlevel. apply in_table_plan in Hm.
  cbn [In] in Hframe, Hlevel.
  destruct m as [l | f l | | l | f]; cbn [In] in Hm.
  - intros E; exfalso; revert E.
    destruct Hframe as [<- | [<- | [<- | []]]]; destruct Hlevel as [<- | [<- | []]];
      destruct Hm as [<- | [<- | [<- | []]]]; vm_compute; discriminate.
  - destruct Hm as (Hf & _ & Hl).
    destruct Hframe as [<- | [<- | [<- | []]]]; destruct Hlevel as [<- | [<- | []]];
      destruct Hf as [<- | [<- | [<- | []]]]; destruct Hl as [<- | [<- | []]];
      try reflexivity; vm_compute; discriminate.
  - intros E; exfalso; revert E.
    destruct Hframe as [<- | [<- | [<- | []]]]; destruct Hlevel as [<- | [<- | []]];
      vm_compute; discriminate.
  - intros E; exfalso; revert E. destruct Hm as (_ & Hl).
    destruct Hframe as [<- | [<- | [<- | []]]]; destruct Hlevel as [<- | [<- | []]];
      destruct Hl as [<- | [<- | [<- | []]]]; vm_compute; discriminate.
  - intros E; exfalso; revert E. destruct Hm as (_ & Hf & _).
    destruct Hframe as [<- | [<- | [<- | []]]]; destruct Hlevel as [<- | [<- | []]];
      destruct Hf as [<- | [<- | []]]; vm_compute; discriminate.
Qed.

(** No cell of any plan carries the label of a 256-byte or 4096-byte
    frame. *)
Lemma label_unused_frame (HAS_ZSTD : bool) (size : Z) (m : measurement)
  (frame level : Z) :
  In m (table_plan HAS_ZSTD size) -> frame = 256 \/ frame = 4096 ->
  label_of m <> label_zlib_frame frame level /\
  label_of m <> label_zstd_frame frame.
Proof.
  intros Hm Hframe. apply in_table_plan in Hm.
  destruct m as [l | f l | | l | f]; cbn [In] in Hm.
  - destruct Hframe as [-> | ->]; split; discriminate.
  - destruct Hm as (Hf & _ & _).
    destruct Hframe as [-> | ->]; destruct Hf as [<- | [<- | [<- | []]]];
      split; discriminate.
  - destruct Hframe as [-> | ->]; split; discriminate.
  - destruct Hframe as [-> | ->]; split; discriminate.
  - destruct Hm as (_ & Hf & _).
    destruct Hframe as [-> | ->]; destruct Hf as [<- | [<- | []]];
      split; discriminate.
Qed.

(** ** The model on small inputs *)

Example editor_21_bytes :
  generate_editor_data 1 21 tt = Done (ESC :: b "[1;1Hconst foo = 123") tt.
Proof. vm_compute. reflexivity. Qed.

Example editor_out_of_fuel : generate_editor_data 1 64 tt = Exhausted.
Proof. vm_compute. reflexivity. Qed.

Example chunks_of_five : chunks (b "abcde") 2 = [b "ab"; b "cd"; b "e"].
Proof. vm_compute. reflexivity. Qed.

Example per_frame_size_of_five : per_frame_size Sample.stored (b "abcde") 2 = 20.
Proof. vm_compute. reflexivity. Qed.

Example label_of_frame_row :
  label_zlib_frame 1024 6 = ("zlib_frame1024_level6" ++ smul " " 21)%string.
Proof. vm_compute. reflexivity. Qed.

Example plan_1024_with_zstd :
  table_plan true 1024 =
  [ ZlibStreaming 1; ZlibStreaming 6; ZlibStreaming 9;
    ZlibFrame 512 1; ZlibFrame 512 6; ZlibFrame 1024 1; ZlibFrame 1024 6;
    LzmaStreaming;
    ZstdStreaming 1; ZstdStreaming 3; ZstdStreaming 9; ZstdFrame 1024 ].
Proof. vm_compute. reflexivity. Qed.

Example plan_65536_without_zstd :
  table_plan false 65536 =
  [ ZlibStreaming 1; ZlibStreaming 6; ZlibStreaming 9;
    ZlibFrame 512 1; ZlibFrame 512 6; ZlibFrame 1024 1; ZlibFrame 1024 6;
    ZlibFrame 2048 1; ZlibFrame 2048 6 ].
Proof. vm_compute. reflexivity. Qed.

(** With a frame size of zero the loop never advances: on a non-empty
    buffer no amount of fuel lets it finish. *)
Lemma frame_loop_zero_diverges (compress : bytes -> bytes) (fuel : nat)
  (data : bytes) (total : Z) :
  data <> [] -> frame_loop compress fuel data 0 total 0 = None.
Proof.
  intros Hne.
  assert (Hl : 0 < len data).
  { destruct data; [congruence |]. rewrite len_cons.
    pose proof (len_nonneg data); lia. }
  revert total; induction fuel as [| fuel IH]; intros total; cbn [frame_loop];
    destruct (Z.ltb_spec 0 (len data)); try lia; [reflexivity |].
  cbv zeta. change (0 + 0) with 0. apply IH.
Qed.

(** * The claims *)

(** ** Generators *)

(** C1.  For every requested size [size >= 0] both generators return exactly
    [size] bytes: with one unit of fuel per requested byte the loops finish
    (every iteration appends at least one byte), no exception is raised, and
    the final padding and truncation give the exact length.  This covers
    sizes smaller than one escape sequence or one generation unit. *)
Theorem generators_exact_length {G S : Type} `{RandomGen G}
  (fuel : nat) (size : Z) (g : G) (st : S) :
  0 <= size -> (Z.to_nat size <= fuel)%nat ->
  (exists data g',
      generate_terminal_data fuel size g = Done data g' /\ len data = size) /\
  (exists data,
      generate_editor_data fuel size st = Done data st /\ len data = size).
Proof.
  intros Hsize Hfuel; split.
  - destruct (generate_terminal_data_bytes fuel size g Hfuel) as [g' E].
    exists (terminal_bytes size), g'; split; [assumption |].
    now apply len_terminal_bytes.
  - exists (editor_bytes size); split.
    + now apply generate_editor_data_bytes.
    + now apply len_editor_bytes.
Qed.

Lemma generators_exact_length_witness :
  0 <= 21 /\ (Z.to_nat 21 <= 21)%nat /\
  (exists data g',
      generate_terminal_data (H := Sample.lcg) 21 21 0 = Done data g' /\
      len data = 21) /\
  (exists data,
      generate_editor_data 21 21 tt = Done data tt /\ len data = 21).
Proof.
  split; [lia |]. split; [apply Nat.le_refl |].
  apply (generators_exact_length (H := Sample.lcg) 21 21 0 tt);
    [lia | apply Nat.le_refl].
Defined.

(** C2.  Two invocations of a generator with the same size return the same
    bytes, whatever the state of the global random generator (and of the
    rest of the process) at each invocation and whatever the fuel, provided
    it suffices: the terminal generator reseeds with 12345 on every call,
    and the editor generator reads no state at all. *)
Theorem generators_deterministic {G S : Type} `{RandomGen G}
  (fuel1 fuel2 : nat) (size : Z) (g1 g2 : G) (s1 s2 : S) :
  (Z.to_nat size <= fuel1)%nat -> (Z.to_nat size <= fuel2)%nat ->
  (exists data g1' g2',
      generate_terminal_data fuel1 size g1 = Done data g1' /\
      generate_terminal_data fuel2 size g2 = Done data g2') /\
  (exists data,
      generate_editor_data fuel1 size s1 = Done data s1 /\
      generate_editor_data fuel2 size s2 = Done data s2).
Proof.
  intros Hfuel1 Hfuel2; split.
  - destruct (generate_terminal_data_bytes fuel1 size g1 Hfuel1) as [g1' E1].
    destruct (generate_terminal_data_bytes fuel2 size g2 Hfuel2) as [g2' E2].
    exists (terminal_bytes size), g1', g2'; split; assumption.
  - exists (editor_bytes size); split; now apply generate_editor_data_bytes.
Qed.

Lemma generators_deterministic_witness :
  (Z.to_nat 100 <= 100)%nat /\ (Z.to_nat 100 <= 250)%nat /\
  (exists data g1' g2',
      generate_terminal_data (H := Sample.lcg) 100 100 7 = Done data g1' /\
      generate_terminal_data (H := Sample.lcg) 250 100 99 = Done data g2') /\
  (exists data,
      generate_editor_data 100 100 true = Done data true /\
      generate_editor_data 250 100 false = Done data false).
Proof.
  assert (H1 : (Z.to_nat 100 <= 100)%nat) by apply Nat.le_refl.
  assert (H2 : (Z.to_nat 100 <= 250)%nat) by (vm_compute; lia).
  split; [exact H1 |]. split; [exact H2 |].
  apply (generators_deterministic (H := Sample.lcg) 100 250 100 7 99 true false H1 H2).
Defined.

(** C9.  In every run of the editor generator the buffer built by the loop
    is the concatenation of the units emitted for the positions of the
    cycle that starts at (1, 1) and moves one line and one column further
    each time, back to line 1 after line 50 and back to column 1 after
    column 80; every emitted position, and the position held when the loop
    exits, has [1 <= line <= 50] and [1 <= column <= 80]. *)
Theorem editor_cursor_cycle (fuel : nat) (size : Z) :
  (Z.to_nat size <= fuel)%nat ->
  exists s n,
    editor_loop fuel size editor_init = Some s /\
    ed_data s = flat_map emitted (cycle_from (1, 1) n) /\
    Forall on_screen (cycle_from (1, 1) n) /\
    on_screen (cursor s).
Proof.
  intros Hfuel.
  destruct (editor_loop_terminates fuel size editor_init) as [s E].
  { cbn [ed_data editor_init]; rewrite len_nil, Z.sub_0_r; assumption. }
  destruct (editor_loop_trace fuel size editor_init s editor_init_on_screen E)
    as (n & Hdata & Hcur).
  exists s, n; repeat split; try assumption; try apply Hcur.
  apply cycle_from_on_screen, editor_init_on_screen.
Qed.

Lemma editor_cursor_cycle_witness :
  (Z.to_nat 4096 <= 4096)%nat /\
  exists s n,
    editor_loop 4096 4096 editor_init = Some s /\
    ed_data s = flat_map emitted (cycle_from (1, 1) n) /\
    Forall on_screen (cycle_from (1, 1) n) /\
    on_screen (cursor s).
Proof.
  split; [apply Nat.le_refl |].
  apply (editor_cursor_cycle 4096 4096). apply Nat.le_refl.
Defined.

(** ** Framing *)

Section FramingClaims.
Context {G T : Type} `{RandomGen G} `{Clock T}.
Variable zlib_compress : bytes -> Z -> bytes.
Variable lzma_compress : bytes -> bytes.
Variable zstd_compress : Z -> bytes -> bytes.

Local Abbreviation world := (World G T).

(** C10.  For every buffer and every positive frame size, the chunks the
    per-frame loop takes (the loop of both per-frame functions, whatever the
    compressor and with one unit of fuel per input byte) form a partition of
    the buffer: the compressor is applied to exactly these chunks, they
    concatenate back to the buffer, the chunk of index [k] is the non-empty
    slice [data[k*frame_size : (k+1)*frame_size]], and every byte position
    lies in exactly one chunk. *)
Theorem per_frame_chunks_partition (compress : bytes -> bytes) (fuel : nat)
  (data : bytes) (frame_size : Z) :
  0 < frame_size -> (Z.to_nat (len data) <= fuel)%nat ->
  exists cs,
    visited_chunks fuel data frame_size 0 = Some cs /\
    frame_loop compress fuel data frame_size 0 0 =
      Some (sum (map (fun chunk => 4 + len (compress chunk)) cs)) /\
    concat cs = data /\
    (forall k c, nth_error cs k = Some c ->
       c = slice data (Z.of_nat k * frame_size) ((Z.of_nat k + 1) * frame_size) /\
       0 < len c) /\
    (forall i, 0 <= i < len data ->
       exists! k, exists c,
         nth_error cs k = Some c /\
         Z.of_nat k * frame_size <= i < Z.of_nat k * frame_size + len c).
Proof.
  intros Hfs Hfuel. exists (chunks data frame_size).
  pose proof (visited_chunks_all fuel data frame_size Hfs Hfuel) as Hv.
  split; [assumption |]. split.
  { rewrite frame_loop_visited, Hv. cbn [option_map]. f_equal; lia. }
  split; [now apply concat_chunks |]. split.
  - intros k c Hk. apply nth_error_chunks in Hk. destruct Hk as [Hk ->].
    split; [reflexivity |].
    apply ceil_div_gt in Hk; [| assumption].
    rewrite len_nth_chunk by assumption. lia.
  - intros i Hi.
    assert (Hq : 0 <= i / frame_size) by (apply Z.div_pos; lia).
    pose proof (Z.mul_div_le i frame_size Hfs) as Hlo.
    pose proof (Z.mul_succ_div_gt i frame_size Hfs) as Hhi.
    assert (Hin : Z.of_nat (Z.to_nat (i / frame_size)) * frame_size < len data)
      by (rewrite Z2Nat.id by assumption; lia).
    exists (Z.to_nat (i / frame_size)); split.
    + exists (nth_chunk data frame_size (Z.to_nat (i / frame_size))). split.
      * apply nth_error_chunks; split; [| reflexivity].
        now apply ceil_div_gt.
      * rewrite len_nth_chunk by assumption.
        rewrite Z2Nat.id by assumption. lia.
    + intros k (c & Hk & Hrange).
      apply nth_error_chunks in Hk. destruct Hk as [Hk ->].
      apply ceil_div_gt in Hk; [| assumption].
      rewrite len_nth_chunk in Hrange by assumption.
      assert (E : i / frame_size = Z.of_nat k).
      { symmetry. apply (Z.div_unique i frame_size (Z.of_nat k)
                           (i - Z.of_nat k * frame_size)); lia. }
      rewrite E. apply Nat2Z.id.
Qed.

(** C3, amended.  For every buffer, positive frame size and level (one unit
    of fuel per input byte), [compress_per_frame_zlib] returns as total the
    sum, over the [ceil(len(data) / frame_size)] chunks
    [data[k*frame_size : (k+1)*frame_size]], of 4 plus the length of the
    compressed chunk; [compress_per_frame_zstd] returns the same sum for its
    compressor when [HAS_ZSTD] holds; when it does not, it returns the pair
    [(0, 0)] at once, total 0 and elapsed 0, without reading the clock or
    changing the state. *)
Theorem per_frame_total_is_sum (fuel : nat) (data : bytes)
  (frame_size level : Z) (w : world) :
  0 < frame_size -> (Z.to_nat (len data) <= fuel)%nat ->
  length (chunks data frame_size) = Z.to_nat (ceil_div (len data) frame_size) /\
  (exists elapsed w',
      compress_per_frame_zlib zlib_compress fuel data frame_size level w =
      Done (per_frame_size (fun chunk => zlib_compress chunk level)
              data frame_size, elapsed) w') /\
  (exists elapsed w',
      compress_per_frame_zstd zstd_compress true fuel data frame_size level w =
      Done (per_frame_size (zstd_compress level) data frame_size, elapsed) w') /\
  compress_per_frame_zstd zstd_compress false fuel data frame_size level w =
  Done (0, 0) w.
Proof.
  intros Hfs Hfuel. split; [| split; [| split]].
  - unfold chunks. now rewrite length_map, length_seq.
  - pose proof (wp_compress_per_frame_zlib zlib_compress fuel data frame_size
                  level w Hfs Hfuel) as W.
    apply wp_done in W. destruct W as ([total elapsed] & w' & E & Htotal & _).
    cbn [fst] in Htotal; subst total. eauto.
  - pose proof (wp_compress_per_frame_zstd zstd_compress fuel data frame_size
                  level w Hfs Hfuel) as W.
    apply wp_done in W. destruct W as ([total elapsed] & w' & E & Htotal & _).
    cbn [fst] in Htotal; subst total. eauto.
  - reflexivity.
Qed.

(** C4.  For every non-empty buffer and level, per-frame zlib compression
    with the frame size equal to the buffer length takes one frame and
    returns the streaming payload size plus one 4-byte header.  In the
    runner, a per-frame zlib row for a frame size of the sweep is printed if
    and only if the frame size does not exceed the data size: a frame size
    equal to the data size is measured, a larger one is skipped. *)
Theorem frame_equal_to_buffer (HAS_ZSTD : bool) (fuel : nat) (data : bytes)
  (level : Z) (w : world) :
  (data <> [] -> (0 < fuel)%nat ->
   chunks data (len data) = [data] /\
   exists payload elapsed1 w1 elapsed2 w2,
     compress_streaming_zlib zlib_compress data level w
     = Done (payload, elapsed1) w1 /\
     compress_per_frame_zlib zlib_compress fuel data (len data) level w
     = Done (payload + 4, elapsed2) w2) /\
  (forall size name frame,
     size <> 0 -> (Z.to_nat (len data) <= fuel)%nat ->
     In frame [512; 1024; 2048] -> In level [1; 6] ->
     exists w' new,
       main_table zlib_compress lzma_compress zstd_compress HAS_ZSTD fuel size
         (name, data) w = Done tt w' /\
       w_stdout w' = w_stdout w ++ new /\
       (In (label_zlib_frame frame level, size,
            per_frame_size (fun chunk => zlib_compress chunk level) data frame)
           (cells new)
        <-> frame <= size)).
Proof.
  split.
  - intros Hne Hfuel.
    assert (Hl : 0 < len data).
    { destruct data; [congruence |]. rewrite len_cons.
      pose proof (len_nonneg data); lia. }
    pose proof (chunks_whole data Hne) as Hchunks.
    split; [assumption |].
    pose proof (wp_compress_streaming_zlib zlib_compress data level w) as W1.
    apply wp_done in W1. destruct W1 as ([payload e1] & w1 & E1 & Hp & _).
    cbn [fst] in Hp.
    assert (Hloop : frame_loop (fun chunk => zlib_compress chunk level)
                      fuel data (len data) 0 0 = Some (payload + 4)).
    { rewrite frame_loop_visited.
      change 0 with (Z.of_nat 0 * len data) at 2.
      rewrite (visited_chunks_from fuel data (len data) 0 1 Hl).
      - fold (chunks data (len data)) in Hchunks.
        change (map (nth_chunk data (len data)) (seq 0 1))
          with (map (nth_chunk data (len data)) (seq 0 (Z.to_nat 1))).
        assert (E : ceil_div (len data) (len data) = 1).
        { unfold ceil_div. symmetry.
          apply (Z.div_unique _ _ 1 (len data - 1)); lia. }
        rewrite <- E. fold (chunks data (len data)). rewrite Hchunks.
        cbn [option_map map sum fold_right]. f_equal; lia.
      - unfold ceil_div. apply (Z.div_unique _ _ 1 (len data - 1)); lia.
      - lia. }
    pose proof (wp_compress_per_frame_zlib_total zlib_compress fuel data
                  (len data) level (payload + 4) w Hloop) as W2.
    apply wp_done in W2. destruct W2 as ([total e2] & w2 & E2 & Ht & _).
    cbn [fst] in Ht; subst total.
    exists payload, e1, w1, e2, w2. split; assumption.
  - intros size name frame Hsize Hfuel Hframe Hlevel.
    pose proof (prints_main_table zlib_compress lzma_compress zstd_compress
                  HAS_ZSTD fuel size name data Hsize Hfuel w) as W.
    apply wp_done in W. destruct W as ([] & w' & E & new & Hout & Hcells & _).
    exists w', new. split; [assumption |]. split; [assumption |].
    rewrite Hcells. unfold table_cells. rewrite in_map_iff. split.
    + intros (m & Hm & Hin). injection Hm as Hlabel _.
      apply (label_zlib_frame_inj HAS_ZSTD size m frame level Hin Hframe Hlevel)
        in Hlabel. subst m.
      apply in_table_plan in Hin. tauto.
    + intros Hle. exists (ZlibFrame frame level). split; [reflexivity |].
      apply in_table_plan. tauto.
Qed.

End FramingClaims.

(** ** Metrics *)

Lemma seconds_nonzero (ns : Z) : ns <> 0 -> ~ (inject_Z ns / 1000000000 == 0)%Q.
Proof.
  intros Hns. unfold Qeq, Qdiv, Qmult, Qinv, inject_Z; cbn. lia.
Qed.

Lemma truediv_nonzero {S : Type} (a c : Q) (st : S) :
  ~ (c == 0)%Q -> truediv a c st = Done (a / c)%Q st.
Proof.
  intros Hc. unfold truediv. destruct (Qeq_bool c 0) eqn:E; [| reflexivity].
  apply Qeq_bool_iff in E. contradiction.
Qed.

Lemma speed_mbps_value {S : Type} (self : Result) (st : S) :
  speed_mbps self st =
  if time_ns self =? 0 then Done 0%Q st
  else Done (inject_Z (original self) / 1024 / 1024
             / (inject_Z (time_ns self) / 1000000000))%Q st.
Proof.
  unfold speed_mbps, bind at 1. rewrite truediv_nonzero by discriminate.
  destruct (Z.eqb_spec (time_ns self) 0) as [E | Hne].
  - rewrite E. reflexivity.
  - destruct (Qeq_bool (inject_Z (time_ns self) / 1000000000) 0) eqn:Ez.
    { apply Qeq_bool_iff in Ez. now apply seconds_nonzero in Ez. }
    unfold bind. rewrite !truediv_nonzero by discriminate.
    apply truediv_nonzero. now apply seconds_nonzero.
Qed.

Lemma inline_mbps_value {S : Type} (size ns : Z) (st : S) :
  inline_mbps size ns st =
  if ns >? 0
  then Done (inject_Z size / 1024 / 1024 / (inject_Z ns / 1000000000))%Q st
  else Done 0%Q st.
Proof.
  unfold inline_mbps. destruct (Z.gtb_spec ns 0) as [Hpos | Hle]; [| reflexivity].
  unfold bind. rewrite !truediv_nonzero by discriminate.
  apply truediv_nonzero. apply seconds_nonzero. lia.
Qed.



(** ** The benchmark matrix *)

Section MatrixClaims.
Context {G T : Type} `{RandomGen G} `{Clock T}.
Variable zlib_compress : bytes -> Z -> bytes.
Variable lzma_compress : bytes -> bytes.
Variable zstd_compress : Z -> bytes -> bytes.

Local Abbreviation world := (World G T).

Lemma in_matrix_cells (HAS_ZSTD : bool) (c : cell) :
  In c (matrix_cells zlib_compress lzma_compress zstd_compress HAS_ZSTD) <->
  exists size data m,
    In size test_sizes /\
    (data = terminal_bytes size \/ data = editor_bytes size) /\
    In m (table_plan HAS_ZSTD size) /\
    c = cell_of zlib_compress lzma_compress zstd_compress size data m.
Proof.
  unfold matrix_cells, size_cells, table_cells. rewrite in_flat_map. split.
  - intros (size & Hsize & Hin). apply in_app_or in Hin.
    destruct Hin as [Hin | Hin]; apply in_map_iff in Hin;
      destruct Hin as (m & <- & Hm); eauto 10.
  - intros (size & data & m & Hsize & Hdata & Hm & ->).
    exists size; split; [assumption |]. apply in_or_app.
    destruct Hdata as [-> | ->]; [left | right]; now apply in_map.
Qed.

(** A run of [main] finishes and prints the rows of the matrix. *)
Lemma main_done (HAS_ZSTD : bool) (fuel : nat) (w : world) :
  65536 <= Z.of_nat fuel ->
  exists w' new,
    main zlib_compress lzma_compress zstd_compress HAS_ZSTD fuel w = Done tt w' /\
    w_stdout w' = w_stdout w ++ new /\
    quiet new = true /\
    cells new = matrix_cells zlib_compress lzma_compress zstd_compress HAS_ZSTD.
Proof.
  intros Hfuel.
  pose proof (prints_main zlib_compress lzma_compress zstd_compress HAS_ZSTD
                fuel Hfuel w) as W.
  apply wp_done in W. destruct W as ([] & w' & E & new & Hout & Hcells & Hq).
  exists w', new. auto.
Qed.

(** C5, the behaviour of the code.  A run of [main] finishes, and although
    256 and 4096 belong to [frame_sizes] and 256 exceeds no buffer, its
    output has no per-frame row, zlib or zstd, for a frame of 256 or 4096
    bytes: the per-frame loops range over [512, 1024, 2048] and
    [1024, 2048], and [frame_sizes] is never read. *)
Theorem unused_frame_sizes_not_measured (HAS_ZSTD : bool) (fuel : nat) (w : world) :
  65536 <= Z.of_nat fuel ->
  exists w' new,
    main zlib_compress lzma_compress zstd_compress HAS_ZSTD fuel w = Done tt w' /\
    w_stdout w' = w_stdout w ++ new /\
    forall frame, frame = 256 \/ frame = 4096 ->
      In frame frame_sizes /\
      forall level size comp,
        ~ In (label_zlib_frame frame level, size, comp) (cells new) /\
        ~ In (label_zstd_frame frame, size, comp) (cells new).
Proof.
  intros Hfuel.
  destruct (main_done HAS_ZSTD fuel w Hfuel) as (w' & new & E & Hout & _ & Hcells).
  exists w', new. split; [assumption |]. split; [assumption |].
  intros frame Hframe. split.
  { unfold frame_sizes; cbn [In]; lia. }
  intros level size comp. rewrite Hcells.
  split; intros Hin; apply in_matrix_cells in Hin;
    destruct Hin as (size' & data & m & _ & _ & Hm & Hc);
    injection Hc as Hlabel _ _;
    destruct (label_unused_frame HAS_ZSTD size' m frame level Hm Hframe)
      as [Hz Hs]; congruence.
Qed.

(** C8.  A run of [main] finishes, and for every data size of the test set
    lzma streaming compression is measured if and only if the size is at
    most 16384 bytes.  For such a size the output has the lzma row of the
    terminal buffer and the lzma row of the editor buffer, the buffers being
    those the two generators return for the size, and the compressed size
    of each row is the length of [lzma_compress] of its buffer; it has no
    other lzma row for the size.  For a larger size it has no lzma row at
    all, and the run still finishes. *)
Theorem lzma_measured_iff_small (HAS_ZSTD : bool) (fuel : nat) (w : world) :
  65536 <= Z.of_nat fuel ->
  exists w' new,
    main zlib_compress lzma_compress zstd_compress HAS_ZSTD fuel w = Done tt w' /\
    w_stdout w' = w_stdout w ++ new /\
    forall size, In size test_sizes ->
      exists terminal_data editor_data g',
        generate_terminal_data fuel size (w_rng w) = Done terminal_data g' /\
        generate_editor_data fuel size w = Done editor_data w /\
        ((exists comp, In (label_lzma_streaming, size, comp) (cells new))
         <-> size <= 16384) /\
        (size <= 16384 ->
         In (label_lzma_streaming, size, len (lzma_compress terminal_data))
            (cells new) /\
         In (label_lzma_streaming, size, len (lzma_compress editor_data))
            (cells new)) /\
        (forall comp,
           In (label_lzma_streaming, size, comp) (cells new) ->
           comp = len (lzma_compress terminal_data) \/
           comp = len (lzma_compress editor_data)).
Proof.
  intros Hfuel.
  destruct (main_done HAS_ZSTD fuel w Hfuel) as (w' & new & E & Hout & _ & Hcells).
  exists w', new. split; [assumption |]. split; [assumption |].
  intros size Hsize.
  assert (Hf : (Z.to_nat size <= fuel)%nat).
  { unfold test_sizes in Hsize; cbn [In] in Hsize.
    assert (size <= 65536) by lia. lia. }
  destruct (generate_terminal_data_bytes fuel size (w_rng w) Hf) as (g' & Eterm).
  exists (terminal_bytes size), (editor_bytes size), g'.
  split; [exact Eterm |].
  split; [now apply generate_editor_data_bytes |].
  assert (Hrows : size <= 16384 ->
    In (label_lzma_streaming, size, len (lzma_compress (terminal_bytes size)))
       (cells new) /\
    In (label_lzma_streaming, size, len (lzma_compress (editor_bytes size)))
       (cells new)).
  { intros Hle. rewrite Hcells.
    split; apply in_matrix_cells;
      [exists size, (terminal_bytes size), LzmaStreaming
      | exists size, (editor_bytes size), LzmaStreaming];
      (repeat split; auto; now apply in_table_plan). }
  assert (Hany : forall comp,
    In (label_lzma_streaming, size, comp) (cells new) ->
    size <= 16384 /\
    (comp = len (lzma_compress (terminal_bytes size)) \/
     comp = len (lzma_compress (editor_bytes size)))).
  { intros comp Hin. rewrite Hcells in Hin. apply in_matrix_cells in Hin.
    destruct Hin as (size' & data & m & _ & Hdata & Hm & Hc).
    injection Hc as Hlabel -> ->. symmetry in Hlabel.
    apply label_lzma_inj in Hlabel. subst m.
    split; [now apply in_table_plan in Hm |].
    destruct Hdata as [-> | ->]; [left | right]; reflexivity. }
  split; [| split].
  - split.
    + intros (comp & Hin). now apply Hany in Hin.
    + intros Hle. eexists. exact (proj1 (Hrows Hle)).
  - exact Hrows.
  - intros comp Hin. now apply Hany in Hin.
Qed.

(** At start-up without zstd the import failure is caught: the flag is
    false and the two notice lines are printed. *)
Lemma module_init_absent (w : world) :
  module_init false w =
  Done false (mk_World (w_rng w) (w_clock w) (w_stdout w ++ notice)).
Proof.
  unfold module_init, try_except, import_zstandard, bind, raise, print, notice;
    cbn. now rewrite <- app_assoc.
Qed.

Lemma module_init_present (w : world) : module_init true w = Done true w.
Proof. reflexivity. Qed.

(** C7, amended.  When zstd is absent the program finishes without an
    exception: the import failure is caught and the flag is false; the
    notice, which is two [print] calls (the note, then the install hint that
    ends in an empty line), is written once, before anything else, and never
    again; and no row of the output has a label that starts with [zstd]. *)
Theorem zstd_absent_degrades (fuel : nat) (w : world) :
  65536 <= Z.of_nat fuel ->
  exists w1 w' new,
    module_init false w = Done false w1 /\
    w_stdout w1 = w_stdout w ++ notice /\
    program zlib_compress lzma_compress zstd_compress false fuel w = Done tt w' /\
    w_stdout w' = w_stdout w ++ notice ++ new /\
    quiet new = true /\
    forall label size comp,
      In (label, size, comp) (cells new) -> prefix "zstd" label = false.
Proof.
  intros Hfuel.
  set (w1 := mk_World (w_rng w) (w_clock w) (w_stdout w ++ notice)).
  destruct (main_done false fuel w1 Hfuel) as (w' & new & E & Hout & Hq & Hcells).
  exists w1, w', new. split; [apply module_init_absent |].
  split; [reflexivity |]. split.
  { unfold program, bind. rewrite module_init_absent. exact E. }
  split; [rewrite Hout; unfold w1; cbn [w_stdout]; now rewrite <- app_assoc |].
  split; [assumption |].
  intros label size comp Hin. rewrite Hcells in Hin.
  apply in_matrix_cells in Hin.
  destruct Hin as (size' & data & m & _ & _ & Hm & Hc).
  injection Hc as -> _ _. rewrite label_prefix_zstd.
  apply in_table_plan in Hm. destruct m; try reflexivity; destruct Hm; discriminate.
Qed.

End MatrixClaims.

(** ** The claims at the sample environment *)

Lemma per_frame_chunks_partition_witness :
  0 < 2 /\ (Z.to_nat (len (b "abcde")) <= 5)%nat /\
  exists cs,
    visited_chunks 5 (b "abcde") 2 0 = Some cs /\
    frame_loop Sample.stored 5 (b "abcde") 2 0 0 =
      Some (sum (map (fun chunk => 4 + len (Sample.stored chunk)) cs)) /\
    concat cs = b "abcde" /\
    (forall k c, nth_error cs k = Some c ->
       c = slice (b "abcde") (Z.of_nat k * 2) ((Z.of_nat k + 1) * 2) /\
       0 < len c) /\
    (forall i, 0 <= i < len (b "abcde") ->
       exists! k, exists c,
         nth_error cs k = Some c /\
         Z.of_nat k * 2 <= i < Z.of_nat k * 2 + len c).
Proof.
  split; [lia |]. split; [apply Nat.le_refl |].
  apply (per_frame_chunks_partition Sample.stored 5 (b "abcde") 2);
    [lia | apply Nat.le_refl].
Defined.

(** C3 as stated fails on [compress_per_frame_zstd] when zstd is absent:
    for the one-byte buffer [b"a"] and frame size 1 it returns the total 0,
    while the sum over the single chunk is at least the 4-byte header. *)
Lemma per_frame_zstd_absent_counterexample :
  exists total elapsed w',
    compress_per_frame_zstd Sample.zstd false 1 (b "a") 1 3 Sample.world0
    = Done (total, elapsed) w' /\
    total <> per_frame_size (Sample.zstd 3) (b "a") 1.
Proof.
  exists 0, 0, Sample.world0. split; [reflexivity |].
  vm_compute; discriminate.
Qed.

Lemma per_frame_total_is_sum_witness :
  0 < 2 /\ (Z.to_nat (len (b "abcde")) <= 5)%nat /\
  length (chunks (b "abcde") 2) = Z.to_nat (ceil_div (len (b "abcde")) 2) /\
  (exists elapsed w',
      compress_per_frame_zlib Sample.zlib 5 (b "abcde") 2 6 Sample.world0 =
      Done (per_frame_size (fun chunk => Sample.zlib chunk 6) (b "abcde") 2,
            elapsed) w') /\
  (exists elapsed w',
      compress_per_frame_zstd Sample.zstd true 5 (b "abcde") 2 6 Sample.world0 =
      Done (per_frame_size (Sample.zstd 6) (b "abcde") 2, elapsed) w') /\
  compress_per_frame_zstd Sample.zstd false 5 (b "abcde") 2 6 Sample.world0 =
  Done (0, 0) Sample.world0.
Proof.
  split; [lia |]. split; [apply Nat.le_refl |].
  apply (per_frame_total_is_sum Sample.zlib Sample.zstd 5 (b "abcde") 2 6
           Sample.world0); [lia | apply Nat.le_refl].
Defined.

Lemma frame_equal_to_buffer_witness :
  (b "abc" <> [] /\ (0 < 3)%nat /\
   exists payload elapsed1 w1 elapsed2 w2,
     compress_streaming_zlib Sample.zlib (b "abc") 6 Sample.world0
     = Done (payload, elapsed1) w1 /\
     compress_per_frame_zlib Sample.zlib 3 (b "abc") (len (b "abc")) 6
       Sample.world0
     = Done (payload + 4, elapsed2) w2) /\
  (1024 <> 0 /\ (Z.to_nat (len (b "abc")) <= 3)%nat /\
   In 1024 [512; 1024; 2048] /\ In 6 [1; 6] /\
   exists w' new,
     main_table Sample.zlib Sample.lzma Sample.zstd false 3 1024
       ("Sample"%string, b "abc") Sample.world0 = Done tt w' /\
     w_stdout w' = w_stdout Sample.world0 ++ new /\
     (In (label_zlib_frame 1024 6, 1024,
          per_frame_size (fun chunk => Sample.zlib chunk 6) (b "abc") 1024)
         (cells new)
      <-> 1024 <= 1024)).
Proof.
  pose proof (frame_equal_to_buffer (G := Z) Sample.zlib Sample.lzma Sample.zstd
                false 3 (b "abc") 6 Sample.world0) as [Hframe Hskip].
  assert (Hne : b "abc" <> []) by discriminate.
  assert (Hfuel : (0 < 3)%nat) by lia.
  assert (Hsize : 1024 <> 0) by lia.
  assert (Hlen : (Z.to_nat (len (b "abc")) <= 3)%nat) by apply Nat.le_refl.
  assert (Hf : In 1024 [512; 1024; 2048]) by (cbn; tauto).
  assert (Hl : In 6 [1; 6]) by (cbn; tauto).
  split.
  - split; [exact Hne |]. split; [exact Hfuel |].
    exact (proj2 (Hframe Hne Hfuel)).
  - split; [exact Hsize |]. split; [exact Hlen |].
    split; [exact Hf |]. split; [exact Hl |].
    exact (Hskip 1024 "Sample"%string 1024 Hsize Hlen Hf Hl).
Defined.



Lemma unused_frame_sizes_not_measured_witness :
  65536 <= Z.of_nat (Z.to_nat 65536) /\
  exists w' new,
    main Sample.zlib Sample.lzma Sample.zstd true (Z.to_nat 65536) Sample.world0
    = Done tt w' /\
    w_stdout w' = w_stdout Sample.world0 ++ new /\
    forall frame, frame = 256 \/ frame = 4096 ->
      In frame frame_sizes /\
      forall level size comp,
        ~ In (label_zlib_frame frame level, size, comp) (cells new) /\
        ~ In (label_zstd_frame frame, size, comp) (cells new).
Proof.
  assert (Hfuel : 65536 <= Z.of_nat (Z.to_nat 65536)) by (rewrite Z2Nat.id; lia).
  split; [exact Hfuel |].
  exact (unused_frame_sizes_not_measured Sample.zlib Sample.lzma Sample.zstd
           true (Z.to_nat 65536) Sample.world0 Hfuel).
Defined.

Lemma lzma_measured_iff_small_witness :
  65536 <= Z.of_nat (Z.to_nat 65536) /\
  exists w' new,
    main Sample.zlib Sample.lzma Sample.zstd false (Z.to_nat 65536) Sample.world0
    = Done tt w' /\
    w_stdout w' = w_stdout Sample.world0 ++ new /\
    forall size, In size test_sizes ->
      exists terminal_data editor_data g',
        generate_terminal_data (Z.to_nat 65536) size (w_rng Sample.world0)
        = Done terminal_data g' /\
        generate_editor_data (Z.to_nat 65536) size Sample.world0
        = Done editor_data Sample.world0 /\
        ((exists comp, In (label_lzma_streaming, size, comp) (cells new))
         <-> size <= 16384) /\
        (size <= 16384 ->
         In (label_lzma_streaming, size, len (Sample.lzma terminal_data))
            (cells new) /\
         In (label_lzma_streaming, size, len (Sample.lzma editor_data))
            (cells new)) /\
        (forall comp,
           In (label_lzma_streaming, size, comp) (cells new) ->
           comp = len (Sample.lzma terminal_data) \/
           comp = len (Sample.lzma editor_data)).
Proof.
  assert (Hfuel : 65536 <= Z.of_nat (Z.to_nat 65536)) by (rewrite Z2Nat.id; lia).
  split; [exact Hfuel |].
  exact (lzma_measured_iff_small Sample.zlib Sample.lzma Sample.zstd
           false (Z.to_nat 65536) Sample.world0 Hfuel).
Defined.

(** C7 as stated fails on the notice: without zstd, start-up writes three
    terminal lines (the note, the install hint, an empty line), not one. *)
Lemma notice_one_line_counterexample :
  exists w',
    module_init false Sample.world0 = Done false w' /\
    lines_written (w_stdout w') = 3%nat /\
    lines_written (w_stdout w') <> 1%nat.
Proof.
  eexists. split; [reflexivity |]. split; [reflexivity | discriminate].
Qed.

Lemma zstd_absent_degrades_witness :
  65536 <= Z.of_nat (Z.to_nat 65536) /\
  exists w1 w' new,
    module_init false Sample.world0 = Done false w1 /\
    w_stdout w1 = w_stdout Sample.world0 ++ notice /\
    program Sample.zlib Sample.lzma Sample.zstd false (Z.to_nat 65536)
      Sample.world0 = Done tt w' /\
    w_stdout w' = w_stdout Sample.world0 ++ notice ++ new /\
    quiet new = true /\
    forall label size comp,
      In (label, size, comp) (cells new) -> prefix "zstd" label = false.
Proof.
  assert (Hfuel : 65536 <= Z.of_nat (Z.to_nat 65536)) by (rewrite Z2Nat.id; lia).
  split; [exact Hfuel |].
  exact (zstd_absent_degrades Sample.zlib Sample.lzma Sample.zstd
           (Z.to_nat 65536) Sample.world0 Hfuel).
Defined.

(** * Further properties of the code *)

(** ** The terminal generator: what it appends *)

Section TerminalMore.
Context {G : Type} `{RandomGen G}.

Lemma wp_choices_from_in {A : Type} (population : list A) (k : nat) (g : G)
  (Q : list A -> G -> Prop) :
  population <> [] ->
  (forall xs g', length xs = k -> Forall (fun x => In x population) xs -> Q xs g') ->
  wp (random.choices_from population k) g Q.
Proof.
  intros Hne; revert g Q.
  assert (Hlen : 0 < len population).
  { destruct population; [congruence |].
    rewrite len_cons; pose proof (len_nonneg population); lia. }
  induction k as [| k IH]; intros g Q HQ; cbn [random.choices_from].
  - apply wp_ret; now apply HQ.
  - apply wp_bind, wp_random; intros r g1 H0 H1.
    apply wp_bind, wp_getitem; [now apply floor_index |]; intros x Hx.
    apply wp_bind, IH; intros xs g2 Hxs Hall.
    apply wp_ret, HQ; [cbn; now rewrite Hxs |].
    constructor; [eapply nth_error_In; eassumption | assumption].
Qed.

Lemma all_ascii_in (xs : list bytes) (x : bytes) :
  forallb (forallb is_ascii) xs = true -> In x xs -> forallb is_ascii x = true.
Proof. intros Hall Hin. rewrite forallb_forall in Hall. now apply Hall. Qed.

Lemma len_bounded_in (xs : list bytes) (x : bytes) (n : Z) :
  forallb (fun y => len y <=? n) xs = true -> In x xs -> len x <= n.
Proof.
  intros Hall Hin. rewrite forallb_forall in Hall.
  specialize (Hall x Hin). now apply Z.leb_le.
Qed.

Lemma forallb_mul_space (n : Z) : forallb is_ascii (mul (b " ") n) = true.
Proof.
  unfold mul. induction (Z.to_nat n) as [| k IH]; [reflexivity |].
  cbn [repeat concat]. rewrite forallb_app, IH. reflexivity.
Qed.

(** One iteration appends between 1 and 80 bytes, all of them 7-bit. *)
Lemma wp_terminal_body_appends (data : bytes) (g : G) (Q : bytes -> G -> Prop) :
  (forall ext g',
      0 < len ext <= 80 -> forallb is_ascii ext = true -> Q (data ++ ext) g') ->
  wp (terminal_body data) g Q.
Proof.
  intros HQ; unfold terminal_body.
  apply wp_bind, wp_randint; [lia |]; intros choice g1 Hchoice.
  destruct (choice <=? 2).
  { apply wp_bind, wp_choice; [discriminate |]; intros e g2 He.
    apply wp_ret, HQ.
    - pose proof (nonempty_in escapes e eq_refl He).
      pose proof (len_bounded_in escapes e 80 eq_refl He). lia.
    - now apply (all_ascii_in escapes). }
  destruct (choice <=? 4).
  { apply wp_bind, wp_randint; [lia |]; intros n g2 Hn.
    apply wp_ret, HQ; [| apply forallb_mul_space].
    change (b " ") with [" "%byte]; rewrite len_mul_byte; lia. }
  destruct (choice =? 5).
  { apply wp_bind, wp_random; intros r g2 _ _.
    destruct (Qle_bool r (1 # 2)); apply wp_ret.
    - apply HQ; [unfold len; cbn [length]; lia | reflexivity].
    - rewrite <- app_assoc.
      apply HQ; [unfold len; cbn [app length]; lia | reflexivity]. }
  destruct (choice <=? 7).
  { apply wp_bind, wp_choice; [discriminate |]; intros p g2 Hp.
    apply wp_ret, HQ.
    - pose proof (nonempty_in patterns p eq_refl Hp).
      pose proof (len_bounded_in patterns p 80 eq_refl Hp). lia.
    - now apply (all_ascii_in patterns). }
  destruct (choice <=? 9).
  { apply wp_bind, wp_randint; [lia |]; intros k g2 Hk.
    apply wp_bind. unfold random.choices.
    apply wp_choices_from_in; [discriminate |]; intros cs g3 Hcs Hall.
    apply wp_ret, HQ; [unfold len; lia |].
    apply forallb_forall. intros x Hx.
    rewrite Forall_forall in Hall. specialize (Hall x Hx).
    assert (Hp : forallb is_ascii printable = true) by reflexivity.
    rewrite forallb_forall in Hp. now apply Hp. }
  apply wp_ret, HQ; [unfold len; cbn [length]; lia | reflexivity].
Qed.

(** A finished loop has only appended to its buffer, and only 7-bit
    bytes. *)
Lemma terminal_loop_appends (fuel : nat) (size : Z) (data d : bytes) (g g' : G) :
  terminal_loop fuel size data g = Done d g' ->
  exists ext, d = data ++ ext /\ forallb is_ascii ext = true.
Proof.
  revert data g; induction fuel as [| fuel IH]; intros data g E;
    cbn [terminal_loop] in E;
    destruct (len data <? size); try discriminate;
    try (injection E as <- <-; exists []; now rewrite app_nil_r).
  unfold bind in E.
  pose proof (wp_terminal_body_appends data g
                (fun data' _ => exists ext,
                     data' = data ++ ext /\ forallb is_ascii ext = true)) as W.
  unfold wp in W.
  destruct (terminal_body data g) as [data' g1 | |]; try discriminate.
  destruct W as (ext1 & -> & Ha1); [eauto |].
  apply IH in E. destruct E as (ext2 & -> & Ha2).
  exists (ext1 ++ ext2). rewrite app_assoc, forallb_app, Ha1, Ha2. auto.
Qed.

(** A loop that finished for a target continues to any larger target. *)
Lemma terminal_loop_extend (f1 f2 : nat) (n m : Z) (data d d2 : bytes)
  (g g' g2 : G) :
  n <= m ->
  terminal_loop f1 n data g = Done d g' ->
  terminal_loop f2 m d g' = Done d2 g2 ->
  terminal_loop (f1 + f2) m data g = Done d2 g2.
Proof.
  intros Hnm; revert data g; induction f1 as [| f1 IH]; intros data g E1 E2;
    cbn [terminal_loop] in E1;
    destruct (Z.ltb_spec (len data) n) as [Hlt | Hge]; try discriminate.
  - injection E1 as <- <-. exact E2.
  - cbn [Nat.add terminal_loop].
    destruct (Z.ltb_spec (len data) m); [| lia].
    unfold bind in *.
    destruct (terminal_body data g) as [data' g1 | |]; try discriminate.
    now apply IH.
  - injection E1 as <- <-.
    apply (terminal_loop_fuel_mono f2); [assumption | lia].
Qed.

End TerminalMore.

Lemma forallb_firstn {A : Type} (f : A -> bool) (n : nat) (l : list A) :
  forallb f l = true -> forallb f (firstn n l) = true.
Proof.
  revert l; induction n as [| n IH]; intros [| x l]; cbn; auto.
  intros Hl; apply andb_prop in Hl; destruct Hl as [-> Hl]. now apply IH.
Qed.

Lemma forallb_skipn {A : Type} (f : A -> bool) (n : nat) (l : list A) :
  forallb f l = true -> forallb f (skipn n l) = true.
Proof.
  revert l; induction n as [| n IH]; intros [| x l]; cbn; auto.
  intros Hl; apply andb_prop in Hl; destruct Hl as [_ Hl]. now apply IH.
Qed.

Lemma forallb_slice {A : Type} (f : A -> bool) (l : list A) (lo hi : Z) :
  forallb f l = true -> forallb f (slice l lo hi) = true.
Proof. intros Hl; unfold slice. now apply forallb_firstn, forallb_skipn. Qed.

Lemma slice_to_nil {A : Type} (hi : Z) : slice_to (@nil A) hi = [].
Proof. unfold slice_to, slice. now rewrite skipn_nil, firstn_nil. Qed.

Section TerminalProperties.
Context {G : Type} `{RandomGen G}.

(** The buffer of a smaller size is a prefix of the buffer of a larger
    one. *)
Lemma terminal_bytes_prefix (n m : Z) :
  0 <= n <= m -> terminal_bytes n = slice_to (terminal_bytes m) n.
Proof.
  intros Hnm.
  destruct (generate_terminal_data_done (Z.to_nat n) n (seed_state 0) (le_n _))
    as (dn & gn & En & Hn & _).
  destruct (generate_terminal_data_done (Z.to_nat m) m (seed_state 0) (le_n _))
    as (dm & gm & Em & Hm & _).
  assert (W : wp (terminal_loop (Z.to_nat m) m dn) gn (fun _ _ => True)).
  { apply wp_terminal_loop; [| trivial]. pose proof (len_nonneg dn). lia. }
  apply wp_done in W. destruct W as (d2 & g2 & E2 & _).
  pose proof (terminal_loop_appends _ _ _ _ _ _ E2) as (ext & -> & _).
  pose proof (terminal_loop_extend _ _ n m _ _ _ _ _ _ (proj2 Hnm) En E2) as E.
  rewrite (terminal_loop_fuel_mono _ (Z.to_nat n + Z.to_nat m) _ _ _ _ _ Em) in E
    by lia.
  injection E as -> _.
  unfold terminal_bytes. rewrite En, Em.
  rewrite !slice_to_firstn by lia.
  rewrite firstn_firstn, Nat.min_l by lia.
  rewrite firstn_app.
  replace (Z.to_nat n - length dn)%nat with 0%nat by (unfold len in Hn; lia).
  cbn [firstn]. now rewrite app_nil_r.
Qed.

(** X1.  The terminal workloads are nested: for [0 <= n <= m] the buffer
    generated for size [n] is the first [n] bytes of the buffer generated
    for size [m], whatever the state of the global generator at either
    call. *)
Theorem terminal_data_prefix (fuel_n fuel_m : nat) (n m : Z) (g1 g2 : G) :
  0 <= n <= m -> (Z.to_nat n <= fuel_n)%nat -> (Z.to_nat m <= fuel_m)%nat ->
  exists dn dm g1' g2',
    generate_terminal_data fuel_n n g1 = Done dn g1' /\
    generate_terminal_data fuel_m m g2 = Done dm g2' /\
    dn = slice_to dm n.
Proof.
  intros Hnm Hfn Hfm.
  destruct (generate_terminal_data_bytes fuel_n n g1 Hfn) as [g1' E1].
  destruct (generate_terminal_data_bytes fuel_m m g2 Hfm) as [g2' E2].
  exists (terminal_bytes n), (terminal_bytes m), g1', g2'.
  repeat split; try assumption. now apply terminal_bytes_prefix.
Qed.

(** X2.  Every byte the terminal generator returns is 7-bit: an escape
    sequence, a space, a line end, a shell pattern, a printable character or
    NUL, never a byte of 128 or more. *)
Theorem terminal_data_ascii (fuel : nat) (size : Z) (g : G) :
  (Z.to_nat size <= fuel)%nat ->
  exists data g',
    generate_terminal_data fuel size g = Done data g' /\
    forallb is_ascii data = true.
Proof.
  intros Hfuel.
  destruct (generate_terminal_data_done fuel size g Hfuel)
    as (data & g' & E & _ & Egen).
  exists (slice_to data size), g'. split; [assumption |].
  apply terminal_loop_appends in E. destruct E as (ext & -> & Hext).
  now apply forallb_slice.
Qed.

(** X3.  For a size of zero or less the terminal generator returns the
    empty buffer at once, without an iteration (no fuel is needed) and
    without an exception; the global generator is left in its seeded
    state. *)
Theorem terminal_data_nonpositive (fuel : nat) (size : Z) (g : G) :
  size <= 0 ->
  generate_terminal_data fuel size g = Done [] (seed_state 12345).
Proof.
  intros Hsize. rewrite generate_terminal_data_reseeds. unfold bind.
  assert (E : terminal_loop fuel size [] (seed_state 12345)
              = Done [] (seed_state 12345)).
  { destruct fuel; cbn [terminal_loop];
      destruct (Z.ltb_spec (len (@nil byte)) size) as [Hlt | _];
      try reflexivity; rewrite len_nil in Hlt; lia. }
  rewrite E. unfold ret. now rewrite slice_to_nil.
Qed.

End TerminalProperties.

Lemma terminal_data_prefix_witness :
  0 <= 5 <= 40 /\ (Z.to_nat 5 <= 5)%nat /\ (Z.to_nat 40 <= 40)%nat /\
  exists dn dm g1' g2',
    generate_terminal_data (H := Sample.lcg) 5 5 1 = Done dn g1' /\
    generate_terminal_data (H := Sample.lcg) 40 40 2 = Done dm g2' /\
    dn = slice_to dm 5.
Proof.
  assert (H1 : 0 <= 5 <= 40) by lia.
  assert (H2 : (Z.to_nat 5 <= 5)%nat) by apply Nat.le_refl.
  assert (H3 : (Z.to_nat 40 <= 40)%nat) by apply Nat.le_refl.
  split; [exact H1 |]. split; [exact H2 |]. split; [exact H3 |].
  exact (terminal_data_prefix (H := Sample.lcg) 5 40 5 40 1 2 H1 H2 H3).
Defined.

Lemma terminal_data_ascii_witness :
  (Z.to_nat 64 <= 64)%nat /\
  exists data g',
    generate_terminal_data (H := Sample.lcg) 64 64 0 = Done data g' /\
    forallb is_ascii data = true.
Proof.
  assert (H1 : (Z.to_nat 64 <= 64)%nat) by apply Nat.le_refl.
  split; [exact H1 |].
  exact (terminal_data_ascii (H := Sample.lcg) 64 64 0 H1).
Defined.

Lemma terminal_data_nonpositive_witness :
  -3 <= 0 /\
  generate_terminal_data (H := Sample.lcg) 0 (-3) 77 = Done [] (seed_state 12345).
Proof.
  assert (H1 : -3 <= 0) by lia.
  split; [exact H1 |].
  exact (terminal_data_nonpositive (H := Sample.lcg) 0 (-3) 77 H1).
Defined.

(** ** The editor generator: shape of the output *)

Lemma mul_byte_repeat (x : byte) (n : Z) : mul [x] n = repeat x (Z.to_nat n).
Proof.
  unfold mul. induction (Z.to_nat n) as [| k IH]; [reflexivity |].
  cbn [repeat concat app]. now rewrite IH.
Qed.

Lemma in_zrange (a n : nat) (z : Z) :
  Z.of_nat a <= z < Z.of_nat (a + n) -> In z (zrange a n).
Proof.
  intros Hz. unfold zrange. apply in_map_iff. exists (Z.to_nat z).
  split; [lia |]. apply in_seq. lia.
Qed.

Lemma on_screen_in_positions (p : Z * Z) : on_screen p -> In p screen_positions.
Proof.
  destruct p as [l c]; unfold on_screen; cbn [fst snd]; intros [Hl Hc].
  unfold screen_positions. apply in_flat_map. exists l. split.
  - apply in_zrange; lia.
  - apply in_map. apply in_zrange; lia.
Qed.

(** On the screen a unit has 22 to 24 bytes, all of them 7-bit. *)
Lemma emitted_on_screen (p : Z * Z) :
  on_screen p ->
  22 <= len (emitted p) <= 24 /\ forallb is_ascii (emitted p) = true.
Proof.
  intros Hp. apply on_screen_in_positions in Hp.
  assert (Hall : forallb (fun q => (22 <=? len (emitted q))
                                   && (len (emitted q) <=? 24)
                                   && forallb is_ascii (emitted q))
                   screen_positions = true) by (vm_compute; reflexivity).
  rewrite forallb_forall in Hall. specialize (Hall p Hp).
  apply andb_prop in Hall. destruct Hall as [Hall Ha].
  apply andb_prop in Hall. destruct Hall as [H22 H24].
  apply Z.leb_le in H22, H24. auto.
Qed.

Lemma units_on_screen (n : nat) (p : Z * Z) :
  on_screen p ->
  22 * Z.of_nat n <= len (flat_map emitted (cycle_from p n)) <= 24 * Z.of_nat n /\
  forallb is_ascii (flat_map emitted (cycle_from p n)) = true.
Proof.
  revert p; induction n as [| n IH]; intros p Hp; cbn [cycle_from flat_map].
  - split; [unfold len; cbn [length]; lia | reflexivity].
  - destruct (emitted_on_screen p Hp) as [Hlen Ha].
    destruct (IH (wrap_next p) (wrap_next_on_screen p Hp)) as [Hlen' Ha'].
    rewrite len_app, forallb_app, Ha, Ha'. split; [lia | reflexivity].
Qed.

(** When the loop exits its buffer is within 20 bytes below and 3 bytes
    above the requested size. *)
Lemma editor_loop_bounds (fuel : nat) (size : Z) (s s' : editor_state) :
  on_screen (cursor s) ->
  len (ed_data s) <= size + 3 ->
  editor_loop fuel size s = Some s' ->
  size - 20 <= len (ed_data s') <= size + 3.
Proof.
  revert s; induction fuel as [| fuel IH]; intros s Hs Hlen E;
    cbn [editor_loop] in E;
    destruct (Z.ltb_spec (len (ed_data s) + 20) size) as [Hlt | Hge];
    try discriminate; try (injection E as <-; lia).
  apply IH in E; [assumption | |].
  - rewrite editor_body_cursor by assumption. now apply wrap_next_on_screen.
  - rewrite editor_body_data, len_app.
    destruct (emitted_on_screen (cursor s) Hs) as [Hu _]. lia.
Qed.

(** X4.  For every size up to 20, zero and negative sizes included, the
    editor generator emits no escape sequence at all: the loop does not
    run (no fuel is needed) and the result is [size] spaces, empty when
    [size <= 0]. *)
Theorem editor_data_small {S : Type} (fuel : nat) (size : Z) (st : S) :
  size <= 20 ->
  generate_editor_data fuel size st = Done (repeat " "%byte (Z.to_nat size)) st.
Proof.
  intros Hsize. unfold generate_editor_data, bind.
  assert (E : editor_loop fuel size editor_init = Some editor_init).
  { destruct fuel; cbn [editor_loop ed_data editor_init];
      destruct (Z.ltb_spec (len (@nil byte) + 20) size) as [Hlt | _];
      try reflexivity; rewrite len_nil in Hlt; lia. }
  rewrite E. cbn [lift_fuel ret ed_data editor_init app]. unfold ret. f_equal.
  rewrite len_nil, Z.sub_0_r. change (b " ") with [" "%byte].
  rewrite mul_byte_repeat.
  destruct (Z.le_gt_cases 0 size) as [Hpos | Hneg].
  - rewrite slice_to_firstn by assumption.
    apply firstn_all2. rewrite repeat_length. lia.
  - replace (Z.to_nat size) with 0%nat by lia. apply slice_to_nil.
Qed.

Lemma editor_data_small_witness :
  7 <= 20 /\
  generate_editor_data 0 7 tt = Done (repeat " "%byte (Z.to_nat 7)) tt.
Proof.
  assert (H1 : 7 <= 20) by lia.
  split; [exact H1 |]. exact (editor_data_small 0 7 tt H1).
Defined.

(** X5.  For every size [>= 0] the editor output consists of whole units,
    each an escape sequence and the content line and 22 to 24 bytes long,
    followed by at most 20 padding spaces; or, when the last unit passes
    the requested size, of the units with at most 3 bytes cut off the
    end. *)
Theorem editor_data_shape {S : Type} (fuel : nat) (size : Z) (st : S) :
  0 <= size -> (Z.to_nat size <= fuel)%nat ->
  exists n buf out,
    buf = flat_map emitted (cycle_from (1, 1) n) /\
    generate_editor_data fuel size st = Done out st /\
    Forall (fun p => 22 <= len (emitted p) <= 24) (cycle_from (1, 1) n) /\
    ((len buf <= size /\ size - len buf <= 20 /\
      out = buf ++ repeat " "%byte (Z.to_nat (size - len buf)))
     \/
     (size < len buf <= size + 3 /\ out = firstn (Z.to_nat size) buf)).
Proof.
  intros Hsize Hfuel.
  destruct (generate_editor_data_eq fuel size st Hfuel) as (s & E & Egen).
  destruct (editor_loop_trace fuel size editor_init s editor_init_on_screen E)
    as (n & Hdata & _).
  change (cursor editor_init) with (1, 1) in Hdata.
  change (ed_data editor_init) with (@nil byte) in Hdata. cbn [app] in Hdata.
  pose proof (editor_loop_bounds fuel size editor_init s editor_init_on_screen)
    as Hb. cbn [ed_data editor_init] in Hb. rewrite len_nil in Hb.
  specialize (Hb ltac:(lia) E).
  assert (Hn : Forall (fun p => 22 <= len (emitted p) <= 24)
                 (cycle_from (1, 1) n)).
  { eapply Forall_impl; [| apply cycle_from_on_screen, editor_init_on_screen].
    intros p Hp. now apply emitted_on_screen. }
  exists n, (ed_data s). eexists. split; [exact Hdata |]. split; [exact Egen |].
  split; [exact Hn |].
  change (b " ") with [" "%byte]. rewrite mul_byte_repeat.
  rewrite slice_to_firstn by assumption.
  destruct (Z.le_gt_cases (len (ed_data s)) size) as [Hle | Hgt].
  - left. split; [assumption |]. split; [lia |].
    apply firstn_all2. rewrite length_app, repeat_length. unfold len in *. lia.
  - right. split; [lia |].
    replace (Z.to_nat (size - len (ed_data s))) with 0%nat by lia.
    cbn [repeat]. now rewrite app_nil_r.
Qed.

Lemma editor_data_shape_witness :
  0 <= 100 /\ (Z.to_nat 100 <= 100)%nat /\
  exists n buf out,
    buf = flat_map emitted (cycle_from (1, 1) n) /\
    generate_editor_data 100 100 tt = Done out tt /\
    Forall (fun p => 22 <= len (emitted p) <= 24) (cycle_from (1, 1) n) /\
    ((len buf <= 100 /\ 100 - len buf <= 20 /\
      out = buf ++ repeat " "%byte (Z.to_nat (100 - len buf)))
     \/
     (100 < len buf <= 100 + 3 /\ out = firstn (Z.to_nat 100) buf)).
Proof.
  assert (H1 : 0 <= 100) by lia.
  assert (H2 : (Z.to_nat 100 <= 100)%nat) by apply Nat.le_refl.
  split; [exact H1 |]. split; [exact H2 |].
  exact (editor_data_shape 100 100 tt H1 H2).
Defined.

(** X6.  Every byte the editor generator returns is 7-bit. *)
Theorem editor_data_ascii {S : Type} (fuel : nat) (size : Z) (st : S) :
  (Z.to_nat size <= fuel)%nat ->
  exists out,
    generate_editor_data fuel size st = Done out st /\
    forallb is_ascii out = true.
Proof.
  intros Hfuel.
  destruct (generate_editor_data_eq fuel size st Hfuel) as (s & E & Egen).
  destruct (editor_loop_trace fuel size editor_init s editor_init_on_screen E)
    as (n & Hdata & _).
  change (cursor editor_init) with (1, 1) in Hdata.
  change (ed_data editor_init) with (@nil byte) in Hdata. cbn [app] in Hdata.
  destruct (units_on_screen n (1, 1) editor_init_on_screen) as [_ Ha].
  rewrite <- Hdata in Ha.
  eexists. split; [exact Egen |].
  apply forallb_slice. rewrite forallb_app, Ha. apply forallb_mul_space.
Qed.

Lemma editor_data_ascii_witness :
  (Z.to_nat 300 <= 300)%nat /\
  exists out,
    generate_editor_data 300 300 tt = Done out tt /\
    forallb is_ascii out = true.
Proof.
  assert (H1 : (Z.to_nat 300 <= 300)%nat) by apply Nat.le_refl.
  split; [exact H1 |]. exact (editor_data_ascii 300 300 tt H1).
Defined.

(** Starting in the iteration of index [k], the loop appends the units of
    index [k], [k+1], ... *)
Lemma editor_loop_units (fuel : nat) (size : Z) (k : nat) (s s' : editor_state) :
  cursor s = (Z.of_nat k mod 50 + 1, Z.of_nat k mod 80 + 1) ->
  editor_loop fuel size s = Some s' ->
  exists n,
    ed_data s' = ed_data s ++ flat_map editor_unit (seq k n) /\
    cursor s' = (Z.of_nat (k + n) mod 50 + 1, Z.of_nat (k + n) mod 80 + 1).
Proof.
  revert k s; induction fuel as [| fuel IH]; intros k s Hs E;
    cbn [editor_loop] in E;
    destruct (len (ed_data s) + 20 <? size); try discriminate.
  1, 3: injection E as <-; exists O; cbn [seq flat_map];
    now rewrite app_nil_r, Nat.add_0_r.
  apply (IH (S k)) in E.
  - destruct E as (n & Hd & Hc). exists (S n).
    rewrite Hd, Hc. split.
    + unfold editor_body at 1; cbn [ed_data seq flat_map].
      injection Hs as -> ->. unfold editor_unit at 2.
      now rewrite <- !app_assoc.
    + now rewrite Nat.add_succ_r.
  - unfold cursor, editor_body; cbn [ed_line ed_col].
    injection Hs as -> ->.
    rewrite Nat2Z.inj_succ. unfold Z.succ.
    f_equal; f_equal; now rewrite Zplus_mod_idemp_l.
Qed.

(** X7.  The unit of index [k] (from 0) that the editor loop appends is the
    cursor move to line [k mod 50 + 1], column [k mod 80 + 1], followed by
    the content line; the buffer is these units in order, and the units
    repeat with period 400. *)
Theorem editor_units_closed_form (fuel : nat) (size : Z) :
  (Z.to_nat size <= fuel)%nat ->
  exists s n,
    editor_loop fuel size editor_init = Some s /\
    ed_data s = flat_map editor_unit (seq 0 n) /\
    cursor s = (Z.of_nat n mod 50 + 1, Z.of_nat n mod 80 + 1) /\
    forall k, editor_unit (k + 400) = editor_unit k.
Proof.
  intros Hfuel.
  destruct (editor_loop_terminates fuel size editor_init) as [s E].
  { cbn [ed_data editor_init]; rewrite len_nil, Z.sub_0_r; assumption. }
  destruct (editor_loop_units fuel size 0 editor_init s eq_refl E)
    as (n & Hd & Hc).
  exists s, n. split; [assumption |]. split; [exact Hd |]. split; [exact Hc |].
  intros k. unfold editor_unit. rewrite Nat2Z.inj_add.
  change (Z.of_nat 400) with (8 * 50) at 1.
  change (Z.of_nat 400) with (5 * 80).
  now rewrite !Z_mod_plus_full.
Qed.

Lemma editor_units_closed_form_witness :
  (Z.to_nat 2000 <= 2000)%nat /\
  exists s n,
    editor_loop 2000 2000 editor_init = Some s /\
    ed_data s = flat_map editor_unit (seq 0 n) /\
    cursor s = (Z.of_nat n mod 50 + 1, Z.of_nat n mod 80 + 1) /\
    forall k, editor_unit (k + 400) = editor_unit k.
Proof.
  assert (H1 : (Z.to_nat 2000 <= 2000)%nat) by apply Nat.le_refl.
  split; [exact H1 |]. exact (editor_units_closed_form 2000 2000 H1).
Defined.

(** ** Per-frame framing: edge cases, chunk sizes and overhead *)

Lemma nonempty_len {A : Type} (l : list A) : l <> [] -> 0 < len l.
Proof.
  destruct l; [congruence |]. intros _. rewrite len_cons.
  pose proof (len_nonneg l); lia.
Qed.

(** With a frame size of zero or less the offset never passes the start of
    a non-empty buffer. *)
Lemma frame_loop_diverges (compress : bytes -> bytes) (fuel : nat)
  (data : bytes) (frame_size total offset : Z) :
  data <> [] -> frame_size <= 0 -> offset <= 0 ->
  frame_loop compress fuel data frame_size total offset = None.
Proof.
  intros Hne Hfs. pose proof (nonempty_len data Hne) as Hl.
  revert total offset; induction fuel as [| fuel IH]; intros total offset Hoff;
    cbn [frame_loop];
    destruct (Z.ltb_spec offset (len data)); try lia; [reflexivity |].
  cbv zeta. apply IH. lia.
Qed.

Lemma frame_loop_empty (compress : bytes -> bytes) (fuel : nat)
  (frame_size : Z) :
  frame_loop compress fuel [] frame_size 0 0 = Some 0.
Proof. destruct fuel; reflexivity. Qed.

Lemma ceil_div_one (a c : Z) : 0 < a <= c -> ceil_div a c = 1.
Proof.
  intros Hac. unfold ceil_div. symmetry.
  apply (Z.div_unique _ _ 1 (a - 1)); lia.
Qed.

(** A buffer no longer than the frame is a single chunk. *)
Lemma chunks_oversized (data : bytes) (frame_size : Z) :
  data <> [] -> len data <= frame_size -> chunks data frame_size = [data].
Proof.
  intros Hne Hfs. pose proof (nonempty_len data Hne) as Hl.
  unfold chunks. rewrite ceil_div_one by lia.
  change (Z.to_nat 1) with 1%nat. cbn [seq map]. f_equal.
  rewrite nth_chunk_firstn by lia.
  cbn [Z.of_nat Z.mul Z.to_nat skipn].
  apply firstn_all2. unfold len in *. lia.
Qed.

Lemma ceil_div_antitone (a c c' : Z) :
  0 <= a -> 0 < c <= c' -> ceil_div a c' <= ceil_div a c.
Proof.
  intros Ha Hc.
  pose proof (ceil_div_nonneg a c' Ha ltac:(lia)) as H0.
  destruct (Z.le_gt_cases (ceil_div a c') (ceil_div a c)) as [| Hgt];
    [assumption | exfalso].
  pose proof (ceil_div_nonneg a c Ha ltac:(lia)) as H1.
  assert (Hk : ceil_div a c < ceil_div a c') by lia.
  apply ceil_div_gt in Hk; [| lia].
  assert (Hk' : ~ ceil_div a c < ceil_div a c) by lia.
  rewrite ceil_div_gt in Hk' by lia. nia.
Qed.

Lemma sum_headers (f : bytes -> Z) (cs : list bytes) :
  sum (map (fun chunk => header_width + f chunk) cs) =
  header_width * Z.of_nat (length cs) + sum (map f cs).
Proof.
  unfold header_width. induction cs as [| c cs IH]; [reflexivity |].
  cbn [map sum fold_right length]. fold (sum (map (fun chunk => 4 + f chunk) cs)).
  fold (sum (map f cs)). rewrite IH. lia.
Qed.

Section FramingProperties.
Context {G T : Type} `{RandomGen G} `{Clock T}.
Variable zlib_compress : bytes -> Z -> bytes.
Variable zstd_compress : Z -> bytes -> bytes.

Local Abbreviation world := (World G T).

(** X8.  Per-frame compression finishes exactly when the buffer is empty or
    the frame size is positive: in those cases it returns with one unit of
    fuel per input byte, and for a non-empty buffer with a frame size of
    zero or less the loop never ends, whatever the fuel (it does not raise
    either).  The same holds for the zstd function when zstd is
    available. *)
Theorem per_frame_terminates_iff (data : bytes) (frame_size level : Z) (w : world) :
  (data = [] \/ 0 < frame_size ->
   exists r1 w1 r2 w2,
     compress_per_frame_zlib zlib_compress (Z.to_nat (len data)) data
       frame_size level w = Done r1 w1 /\
     compress_per_frame_zstd zstd_compress true (Z.to_nat (len data)) data
       frame_size level w = Done r2 w2) /\
  (data <> [] -> frame_size <= 0 ->
   forall fuel,
     compress_per_frame_zlib zlib_compress fuel data frame_size level w
     = Exhausted /\
     compress_per_frame_zstd zstd_compress true fuel data frame_size level w
     = Exhausted).
Proof.
  split.
  - intros Hok.
    assert (Hloop : forall compress, exists total,
               frame_loop compress (Z.to_nat (len data)) data frame_size 0 0
               = Some total).
    { intros compress. destruct Hok as [-> | Hfs].
      - eexists. apply frame_loop_empty.
      - eexists. now apply frame_loop_total. }
    destruct (Hloop (fun chunk => zlib_compress chunk level)) as [t1 E1].
    destruct (Hloop (zstd_compress level)) as [t2 E2].
    unfold compress_per_frame_zlib, compress_per_frame_zstd, bind,
      perf_counter_ns; cbn [negb].
    destruct (clock_read (w_clock w)) as [start c1]; cbn [w_clock].
    rewrite E1, E2; cbn [lift_fuel]; unfold ret at 1 3.
    cbn [w_clock]. destruct (clock_read c1) as [stop c2].
    do 4 eexists. split; reflexivity.
  - intros Hne Hfs fuel.
    unfold compress_per_frame_zlib, compress_per_frame_zstd, bind,
      perf_counter_ns; cbn [negb].
    destruct (clock_read (w_clock w)) as [start c1].
    rewrite !frame_loop_diverges by (assumption || lia).
    split; reflexivity.
Qed.

(** X9.  On the empty buffer per-frame compression returns the total 0 for
    every frame size, positive or not, and every amount of fuel: the loop
    body is never entered and no header is counted. *)
Theorem per_frame_empty (HAS_ZSTD : bool) (fuel : nat) (frame_size level : Z)
  (w : world) :
  (exists elapsed w',
      compress_per_frame_zlib zlib_compress fuel [] frame_size level w
      = Done (0, elapsed) w') /\
  (exists elapsed w',
      compress_per_frame_zstd zstd_compress HAS_ZSTD fuel [] frame_size level w
      = Done (0, elapsed) w').
Proof.
  assert (Hrun : forall compress,
             exists elapsed w',
               (start <- perf_counter_ns ;;
                total <- lift_fuel (frame_loop compress fuel [] frame_size 0 0) ;;
                stop <- perf_counter_ns ;;
                ret (total, stop - start)) w = Done (0, elapsed) w').
  { intros compress. unfold bind, perf_counter_ns.
    destruct (clock_read (w_clock w)) as [start c1]; cbn [w_clock].
    rewrite frame_loop_empty; cbn [lift_fuel]; unfold ret at 1; cbn [w_clock].
    destruct (clock_read c1) as [stop c2]. do 2 eexists. reflexivity. }
  split.
  - apply Hrun.
  - unfold compress_per_frame_zstd. destruct HAS_ZSTD; cbn [negb].
    + apply Hrun.
    + exists 0, w. reflexivity.
Qed.

(** X10.  Whenever the frame size is at least the length of a non-empty
    buffer (the combinations the runner skips when it exceeds it), per-frame
    compression takes the whole buffer as its only frame and returns the
    streaming payload size plus one 4-byte header. *)
Theorem oversized_frame_is_streaming (fuel : nat) (data : bytes)
  (frame_size level : Z) (w : world) :
  data <> [] -> len data <= frame_size -> (0 < fuel)%nat ->
  chunks data frame_size = [data] /\
  exists payload elapsed1 w1 elapsed2 w2,
    compress_streaming_zlib zlib_compress data level w
    = Done (payload, elapsed1) w1 /\
    compress_per_frame_zlib zlib_compress fuel data frame_size level w
    = Done (payload + 4, elapsed2) w2.
Proof.
  intros Hne Hfs Hfuel. pose proof (nonempty_len data Hne) as Hl.
  pose proof (chunks_oversized data frame_size Hne Hfs) as Hchunks.
  split; [assumption |].
  pose proof (wp_compress_streaming_zlib zlib_compress data level w) as W1.
  apply wp_done in W1. destruct W1 as ([payload e1] & w1 & E1 & Hp & _).
  cbn [fst] in Hp.
  assert (Hloop : frame_loop (fun chunk => zlib_compress chunk level)
                    fuel data frame_size 0 0 = Some (payload + 4)).
  { rewrite frame_loop_visited.
    change 0 with (Z.of_nat 0 * frame_size) at 2.
    rewrite (visited_chunks_from fuel data frame_size 0 1);
      [| lia | rewrite ceil_div_one by lia; reflexivity | lia].
    unfold chunks in Hchunks. rewrite ceil_div_one in Hchunks by lia.
    change (Z.to_nat 1) with 1%nat in Hchunks. rewrite Hchunks.
    cbn [option_map map sum fold_right]. f_equal; lia. }
  pose proof (wp_compress_per_frame_zlib_total zlib_compress fuel data
                frame_size level (payload + 4) w Hloop) as W2.
  apply wp_done in W2. destruct W2 as ([total e2] & w2 & E2 & Ht & _).
  cbn [fst] in Ht; subst total.
  exists payload, e1, w1, e2, w2. split; assumption.
Qed.

(** X11.  The loop cuts the buffer into full frames and one last frame:
    every chunk it takes except the last has exactly [frame_size] bytes,
    and the last has the remaining [len(data) - k*frame_size] bytes,
    between 1 and [frame_size]. *)
Theorem per_frame_chunk_sizes (fuel : nat) (data : bytes) (frame_size : Z) :
  0 < frame_size -> (Z.to_nat (len data) <= fuel)%nat ->
  exists cs,
    visited_chunks fuel data frame_size 0 = Some cs /\
    forall k c, nth_error cs k = Some c ->
      ((S k < length cs)%nat -> len c = frame_size) /\
      (S k = length cs ->
       len c = len data - Z.of_nat k * frame_size /\ 1 <= len c <= frame_size).
Proof.
  intros Hfs Hfuel. exists (chunks data frame_size).
  split; [now apply visited_chunks_all |].
  intros k c Hk. apply nth_error_chunks in Hk. destruct Hk as [Hk ->].
  assert (Hn : length (chunks data frame_size)
               = Z.to_nat (ceil_div (len data) frame_size)).
  { unfold chunks. now rewrite length_map, length_seq. }
  pose proof (ceil_div_nonneg (len data) frame_size (len_nonneg data) Hfs)
    as Hcnt.
  pose proof Hk as Hin. apply ceil_div_gt in Hin; [| assumption].
  rewrite len_nth_chunk by assumption. rewrite Hn. split.
  - intros Hlt.
    assert (Hk1 : Z.of_nat k + 1 < ceil_div (len data) frame_size) by lia.
    apply ceil_div_gt in Hk1; [| assumption]. lia.
  - intros Hlast.
    assert (Hk1 : ~ Z.of_nat k + 1 < ceil_div (len data) frame_size) by lia.
    rewrite ceil_div_gt in Hk1 by assumption. lia.
Qed.

(** X12.  The total of per-frame compression is the compressed payload of
    the chunks plus a header overhead of exactly [4 * ceil(len(data) /
    frame_size)] bytes, and that overhead never grows when the frame size
    grows. *)
Theorem per_frame_header_overhead (fuel : nat) (data : bytes)
  (frame_size frame_size' level : Z) (w : world) :
  0 < frame_size <= frame_size' -> (Z.to_nat (len data) <= fuel)%nat ->
  (exists total elapsed w',
      compress_per_frame_zlib zlib_compress fuel data frame_size level w
      = Done (total, elapsed) w' /\
      total =
      4 * ceil_div (len data) frame_size
      + sum (map (fun chunk => len (zlib_compress chunk level))
               (chunks data frame_size))) /\
  4 * ceil_div (len data) frame_size' <= 4 * ceil_div (len data) frame_size.
Proof.
  intros Hfs Hfuel. split.
  - pose proof (wp_compress_per_frame_zlib zlib_compress fuel data frame_size
                  level w ltac:(lia) Hfuel) as W.
    apply wp_done in W. destruct W as ([total elapsed] & w' & E & Ht & _).
    cbn [fst] in Ht. exists total, elapsed, w'. split; [assumption |].
    rewrite Ht. unfold per_frame_size.
    rewrite (sum_headers (fun chunk => len (zlib_compress chunk level))).
    unfold header_width, chunks at 1. rewrite length_map, length_seq.
    pose proof (ceil_div_nonneg (len data) frame_size (len_nonneg data)
                  ltac:(lia)). lia.
  - pose proof (ceil_div_antitone (len data) frame_size frame_size'
                  (len_nonneg data) Hfs). lia.
Qed.

(** X13.  A measurement reads the clock exactly twice, before and after the
    compression, however many chunks there are; the elapsed time is the
    difference of the two readings, and neither standard output nor the
    random generator is touched. *)
Theorem measurement_reads_clock_twice (fuel : nat) (data : bytes)
  (frame_size level : Z) (w : world) :
  0 < frame_size -> (Z.to_nat (len data) <= fuel)%nat ->
  let (start, c1) := clock_read (w_clock w) in
  let (stop, c2) := clock_read c1 in
  let w' := mk_World (w_rng w) c2 (w_stdout w) in
  compress_streaming_zlib zlib_compress data level w =
    Done (len (zlib_compress data level), stop - start) w' /\
  compress_per_frame_zlib zlib_compress fuel data frame_size level w =
    Done (per_frame_size (fun chunk => zlib_compress chunk level)
            data frame_size, stop - start) w'.
Proof.
  intros Hfs Hfuel.
  unfold compress_streaming_zlib, compress_per_frame_zlib, bind, perf_counter_ns.
  rewrite (frame_loop_total _ fuel data frame_size Hfs Hfuel).
  destruct (clock_read (w_clock w)) as [start c1].
  cbv beta iota delta [ret lift_fuel w_clock w_rng w_stdout].
  destruct (clock_read c1) as [stop c2]. split; reflexivity.
Qed.

End FramingProperties.
(** ** Metrics: the two throughput paths and the ratio of a result *)
(** ** Metrics: the two throughput paths and the ratio *)

Lemma mbps_negative (size ns : Z) :
  0 < size -> ns < 0 ->
  (inject_Z size / 1024 / 1024 / (inject_Z ns / 1000000000) < 0)%Q.
Proof.
  intros Hsize Hns. destruct ns as [| p | p]; try lia.
  destruct size as [| q | q]; try lia.
  unfold Qlt, Qdiv, Qmult, Qinv, inject_Z; cbn. lia.
Qed.

(** X14.  The two throughput computations agree whenever the elapsed time
    is not negative, and differ when it is: the report loop tests
    [ns > 0] and yields 0, while [Result.speed_mbps] tests
    [seconds == 0] only and, for a positive size and integers of the 64-bit
    range, divides and yields a negative throughput. *)
Theorem throughput_paths {S : Type} (self : Result) (st : S) :
  (0 <= time_ns self ->
   speed_mbps self st = inline_mbps (original self) (time_ns self) st) /\
  (time_ns self < 0 ->
   inline_mbps (original self) (time_ns self) st = Done 0%Q st /\
   (- 9223372036854775808 < time_ns self ->
    0 < original self < 9223372036854775808 ->
    exists mbps, speed_mbps self st = Done mbps st /\ (mbps < 0)%Q)).
Proof.
  rewrite speed_mbps_value, inline_mbps_value. split.
  - intros Hns.
    destruct (Z.eqb_spec (time_ns self) 0), (Z.gtb_spec (time_ns self) 0);
      try reflexivity; lia.
  - intros Hns.
    destruct (Z.eqb_spec (time_ns self) 0), (Z.gtb_spec (time_ns self) 0);
      try lia.
    split; [reflexivity |]. intros _ Horig. eexists. split; [reflexivity |].
    apply mbps_negative; lia.
Qed.

Lemma throughput_paths_witness :
  (0 <= 2000 /\
   speed_mbps (mk_Result "zlib" 4096 100 2000) tt = inline_mbps 4096 2000 tt) /\
  (-5 < 0 /\
   inline_mbps 4096 (-5) tt = Done 0%Q tt /\
   - 9223372036854775808 < -5 /\
   0 < 4096 < 9223372036854775808 /\
   exists mbps,
     speed_mbps (mk_Result "zlib" 4096 100 (-5)) tt = Done mbps tt /\
     (mbps < 0)%Q).
Proof.
  assert (H1 : 0 <= 2000) by lia.
  assert (H2 : -5 < 0) by lia.
  assert (H3 : - 9223372036854775808 < -5) by lia.
  assert (H4 : 0 < 4096 < 9223372036854775808) by lia.
  split.
  - split; [exact H1 |].
    exact (proj1 (throughput_paths (mk_Result "zlib" 4096 100 2000) tt) H1).
  - split; [exact H2 |].
    pose proof (proj2 (throughput_paths (mk_Result "zlib" 4096 100 (-5)) tt) H2)
      as [Hinline Hspeed].
    split; [exact Hinline |]. split; [exact H3 |]. split; [exact H4 |].
    exact (Hspeed H3 H4).
Defined.

(** X15.  [Result.ratio] raises [ZeroDivisionError] exactly when the
    original size is 0, whatever the compressed size; otherwise it is 100
    when the compressed size equals the original one and 0 when the
    compressed size is 0. *)
Theorem result_metrics_errors {S : Type} (self : Result) (st : S) :
  (original self = 0 -> ratio self st = Fail ZeroDivisionError st) /\
  (original self <> 0 ->
   (forall st', ratio self st <> Fail ZeroDivisionError st') /\
   (compressed self = original self ->
    exists r, ratio self st = Done r st /\ (r == 100)%Q) /\
   (compressed self = 0 ->
    exists r, ratio self st = Done r st /\ (r == 0)%Q)).
Proof.
  split.
  - intros E. unfold ratio, bind, truediv. rewrite E. reflexivity.
  - intros Hne.
    assert (Hq : ~ (inject_Z (original self) == 0)%Q)
      by (unfold Qeq, inject_Z; cbn; lia).
    unfold ratio, bind. rewrite truediv_nonzero by assumption. unfold ret.
    split; [discriminate |]. split.
    + intros ->. eexists. split; [reflexivity |]. now field.
    + intros ->. eexists. split; [reflexivity |]. now field.
Qed.

Lemma result_metrics_errors_witness :
  ratio (mk_Result "zlib" 0 10 5) tt = Fail ZeroDivisionError tt /\
  (1024 <> 0 /\
   (forall st', ratio (mk_Result "zlib" 1024 1024 5) tt
                <> Fail ZeroDivisionError st') /\
   exists r, ratio (mk_Result "zlib" 1024 1024 5) tt = Done r tt /\ (r == 100)%Q) /\
  (exists r, ratio (mk_Result "zlib" 1024 0 5) tt = Done r tt /\ (r == 0)%Q).
Proof.
  assert (H1 : 1024 <> 0) by lia.
  split; [exact (proj1 (result_metrics_errors (mk_Result "zlib" 0 10 5) tt) eq_refl) |].
  split.
  - split; [exact H1 |].
    pose proof (proj2 (result_metrics_errors (mk_Result "zlib" 1024 1024 5) tt) H1)
      as (Hno & Hfull & _).
    split; [exact Hno | exact (Hfull eq_refl)].
  - exact (proj2 (proj2 (proj2 (result_metrics_errors
                                  (mk_Result "zlib" 1024 0 5) tt) H1)) eq_refl).
Defined.

(** ** The matrix: which rows a run prints *)

Lemma distinct_NoDup (l : list string) : distinct l = true -> NoDup l.
Proof.
  induction l as [| s l IH]; cbn [distinct]; intros Hd; constructor.
  - apply andb_prop in Hd. destruct Hd as [Hs _].
    intros Hin. apply negb_true_iff in Hs.
    assert (E : existsb (String.eqb s) l = true).
    { apply existsb_exists. exists s. split; [assumption | apply String.eqb_refl]. }
    congruence.
  - apply andb_prop in Hd. now apply IH.
Qed.

Lemma NoDup_map_injective {A B : Type} (f : A -> B) (l : list A) (x y : A) :
  NoDup (map f l) -> In x l -> In y l -> f x = f y -> x = y.
Proof.
  induction l as [| a l IH]; cbn [map In]; [contradiction |].
  intros Hnd Hx Hy E. inversion Hnd as [| ? ? Hnotin Hnd']; subst.
  destruct Hx as [-> | Hx], Hy as [-> | Hy]; auto.
  - exfalso. apply Hnotin. rewrite E. now apply in_map.
  - exfalso. apply Hnotin. rewrite <- E. now apply in_map.
Qed.

(** The labels of the sweep are pairwise different. *)
Lemma label_of_injective (m m' : measurement) :
  In m sweep -> In m' sweep -> label_of m = label_of m' -> m = m'.
Proof.
  apply NoDup_map_injective. apply distinct_NoDup. vm_compute. reflexivity.
Qed.

Lemma plan_in_sweep (HAS_ZSTD : bool) (size : Z) (m : measurement) :
  In m (table_plan HAS_ZSTD size) -> In m sweep.
Proof.
  intros Hm. apply in_table_plan in Hm. unfold sweep; cbn [map flat_map app].
  destruct m as [l | f l | | l | f]; cbn [In] in Hm |- *.
  - intuition (subst; auto 20).
  - destruct Hm as (Hf & _ & Hl). intuition (subst; auto 20).
  - auto 20.
  - destruct Hm as (_ & Hl). intuition (subst; auto 20).
  - destruct Hm as (_ & Hf & _). intuition (subst; auto 20).
Qed.

Lemma measured_in_plan (HAS_ZSTD : bool) (size : Z) (m : measurement) :
  In m sweep ->
  (In m (table_plan HAS_ZSTD size) <-> measured HAS_ZSTD size m = true).
Proof.
  intros Hm. rewrite in_table_plan. unfold sweep in Hm.
  cbn [map flat_map app In] in Hm.
  repeat (destruct Hm as [<- | Hm]); try contradiction; cbn [measured In];
    rewrite ?andb_true_iff, ?negb_true_iff;
    repeat match goal with
      | |- context [?a >? ?c] => destruct (Z.gtb_spec a c)
      | |- context [?a <=? ?c] => destruct (Z.leb_spec a c)
      end;
    intuition (try discriminate; try lia).
Qed.

Section MatrixProperties.
Context {G T : Type} `{RandomGen G} `{Clock T}.
Variable zlib_compress : bytes -> Z -> bytes.
Variable lzma_compress : bytes -> bytes.
Variable zstd_compress : Z -> bytes -> bytes.

Local Abbreviation world := (World G T).

(** X17.  The rows of a run are exactly the cells its guards let through:
    for every size of the test set and every cell of the sweep, the output
    has a row with that cell's label and that size if and only if the cell
    is not skipped, that is, zlib streaming always, a zlib frame when it
    does not exceed the size, lzma when the size is at most 16384, zstd
    streaming when zstd is available, and a zstd frame when zstd is
    available and the frame does not exceed the size. *)
Theorem rows_are_the_unskipped_cells (HAS_ZSTD : bool) (fuel : nat) (w : world) :
  65536 <= Z.of_nat fuel ->
  exists w' new,
    main zlib_compress lzma_compress zstd_compress HAS_ZSTD fuel w = Done tt w' /\
    w_stdout w' = w_stdout w ++ new /\
    forall size m, In size test_sizes -> In m sweep ->
      ((exists comp, In (label_of m, size, comp) (cells new))
       <-> measured HAS_ZSTD size m = true).
Proof.
  intros Hfuel.
  destruct (main_done zlib_compress lzma_compress zstd_compress HAS_ZSTD fuel w
              Hfuel) as (w' & new & E & Hout & _ & Hcells).
  exists w', new. split; [assumption |]. split; [assumption |].
  intros size m Hsize Hm. rewrite Hcells.
  rewrite <- (measured_in_plan HAS_ZSTD size m Hm). split.
  - intros (comp & Hin). apply in_matrix_cells in Hin.
    destruct Hin as (size' & data & m' & _ & _ & Hm' & Hc).
    injection Hc as Hlabel -> _.
    apply label_of_injective in Hlabel;
      [now subst m' | assumption | eapply plan_in_sweep; eassumption].
  - intros Hin.
    exists (comp_of zlib_compress lzma_compress zstd_compress
              (terminal_bytes size) m).
    apply in_matrix_cells. exists size, (terminal_bytes size), m.
    repeat split; auto.
Qed.

(** X18.  A run prints 74 rows when zstd is absent and 112 when it is
    available, whatever the data, the clock and the compressors. *)
Theorem row_count (HAS_ZSTD : bool) (fuel : nat) (w : world) :
  65536 <= Z.of_nat fuel ->
  exists w' new,
    main zlib_compress lzma_compress zstd_compress HAS_ZSTD fuel w = Done tt w' /\
    w_stdout w' = w_stdout w ++ new /\
    length (cells new) = if HAS_ZSTD then 112%nat else 74%nat.
Proof.
  intros Hfuel.
  destruct (main_done zlib_compress lzma_compress zstd_compress HAS_ZSTD fuel w
              Hfuel) as (w' & new & E & Hout & _ & Hcells).
  exists w', new. split; [assumption |]. split; [assumption |].
  rewrite Hcells. unfold matrix_cells, test_sizes. cbn [flat_map].
  unfold size_cells, table_cells.
  rewrite !length_app, !length_map. destruct HAS_ZSTD; reflexivity.
Qed.

(** X19.  The size printed in a row is the true length of the buffer that
    was compressed for it, and the compressed size is the one the row's
    cell gives for that buffer: every row of a run is the cell of a buffer
    returned by one of the two generators for [size], of exactly [size]
    bytes. *)
Theorem rows_report_true_sizes (HAS_ZSTD : bool) (fuel : nat) (w : world) :
  65536 <= Z.of_nat fuel ->
  exists w' new,
    main zlib_compress lzma_compress zstd_compress HAS_ZSTD fuel w = Done tt w' /\
    w_stdout w' = w_stdout w ++ new /\
    forall label size comp, In (label, size, comp) (cells new) ->
      exists data m,
        ((exists g', generate_terminal_data fuel size (w_rng w) = Done data g')
         \/ generate_editor_data fuel size w = Done data w) /\
        len data = size /\
        In size test_sizes /\
        label = label_of m /\
        comp = comp_of zlib_compress lzma_compress zstd_compress data m.
Proof.
  intros Hfuel.
  destruct (main_done zlib_compress lzma_compress zstd_compress HAS_ZSTD fuel w
              Hfuel) as (w' & new & E & Hout & _ & Hcells).
  exists w', new. split; [assumption |]. split; [assumption |].
  intros label size comp Hin. rewrite Hcells in Hin.
  apply in_matrix_cells in Hin.
  destruct Hin as (size' & data & m & Hsize & Hdata & _ & Hc).
  injection Hc as -> -> ->. exists data, m.
  assert (Hpos : 0 <= size').
  { unfold test_sizes in Hsize; cbn [In] in Hsize; lia. }
  assert (Hf : (Z.to_nat size' <= fuel)%nat).
  { unfold test_sizes in Hsize; cbn [In] in Hsize.
    assert (size' <= 65536) by lia. lia. }
  split; [| split; [| auto]].
  - destruct Hdata as [-> | ->].
    + left. now apply generate_terminal_data_bytes.
    + right. now apply generate_editor_data_bytes.
  - destruct Hdata as [-> | ->];
      [now apply len_terminal_bytes | now apply len_editor_bytes].
Qed.

(** X20.  With zstd installed nothing is printed at start-up, the flag is
    true, and no line of the whole output is a line of the notice. *)
Theorem zstd_present_no_notice (fuel : nat) (w : world) :
  65536 <= Z.of_nat fuel ->
  module_init true w = Done true w /\
  exists w' new,
    program zlib_compress lzma_compress zstd_compress true fuel w = Done tt w' /\
    w_stdout w' = w_stdout w ++ new /\
    quiet new = true.
Proof.
  intros Hfuel. split; [reflexivity |].
  destruct (main_done zlib_compress lzma_compress zstd_compress true fuel w
              Hfuel) as (w' & new & E & Hout & Hq & _).
  exists w', new. split; [exact E |]. split; assumption.
Qed.

End MatrixProperties.

(** ** Editor workloads of different sizes *)

Lemma editor_loop_appends (fuel : nat) (size : Z) (s s' : editor_state) :
  editor_loop fuel size s = Some s' ->
  exists ext, ed_data s' = ed_data s ++ ext.
Proof.
  revert s; induction fuel as [| fuel IH]; intros s E; cbn [editor_loop] in E;
    destruct (len (ed_data s) + 20 <? size); try discriminate;
    try (injection E as <-; exists []; now rewrite app_nil_r).
  apply IH in E. destruct E as (ext & ->).
  rewrite editor_body_data, <- app_assoc. eauto.
Qed.

Lemma editor_loop_exit (fuel : nat) (size : Z) (s s' : editor_state) :
  editor_loop fuel size s = Some s' -> size <= len (ed_data s') + 20.
Proof.
  revert s; induction fuel as [| fuel IH]; intros s E; cbn [editor_loop] in E;
    destruct (Z.ltb_spec (len (ed_data s) + 20) size); try discriminate;
    try (injection E as <-; lia).
  now apply IH in E.
Qed.

(** A loop that finished for a target continues to any larger target. *)
Lemma editor_loop_extend (f1 f2 : nat) (n m : Z) (s s1 s2 : editor_state) :
  n <= m ->
  editor_loop f1 n s = Some s1 ->
  editor_loop f2 m s1 = Some s2 ->
  editor_loop (f1 + f2) m s = Some s2.
Proof.
  intros Hnm; revert s; induction f1 as [| f1 IH]; intros s E1 E2;
    cbn [editor_loop] in E1;
    destruct (Z.ltb_spec (len (ed_data s) + 20) n) as [Hlt | Hge];
    try discriminate.
  - injection E1 as <-. exact E2.
  - cbn [Nat.add editor_loop].
    destruct (Z.ltb_spec (len (ed_data s) + 20) m); [| lia].
    now apply IH.
  - injection E1 as <-.
    apply (editor_loop_fuel_mono f2); [assumption | lia].
Qed.

(** X21.  Editor workloads of different sizes agree except at the end of
    the smaller one: for [20 <= n <= m], the buffers generated for sizes [n]
    and [m] have the same first [n - 20] bytes (the smaller one may end in
    up to 20 padding spaces where the larger one goes on with the next
    unit). *)
Theorem editor_data_common_prefix {S : Type} (fuel_n fuel_m : nat) (n m : Z)
  (st : S) :
  20 <= n <= m -> (Z.to_nat n <= fuel_n)%nat -> (Z.to_nat m <= fuel_m)%nat ->
  exists dn dm,
    generate_editor_data fuel_n n st = Done dn st /\
    generate_editor_data fuel_m m st = Done dm st /\
    slice_to dn (n - 20) = slice_to dm (n - 20).
Proof.
  intros Hnm Hfn Hfm.
  destruct (generate_editor_data_eq fuel_n n st Hfn) as (sn & En & Egn).
  destruct (generate_editor_data_eq fuel_m m st Hfm) as (sm & Em & Egm).
  do 2 eexists. split; [exact Egn |]. split; [exact Egm |].
  pose proof (editor_loop_exit _ _ _ _ En) as Hexit.
  assert (Hterm : exists s2, editor_loop (Z.to_nat m) m sn = Some s2).
  { apply editor_loop_terminates. pose proof (len_nonneg (ed_data sn)). lia. }
  destruct Hterm as [s2 E2].
  pose proof (editor_loop_extend _ _ n m _ _ _ (proj2 Hnm) En E2) as E.
  apply (editor_loop_fuel_mono _ (fuel_n + Z.to_nat m + fuel_m)) in E; [| lia].
  rewrite (editor_loop_fuel_mono fuel_m (fuel_n + Z.to_nat m + fuel_m) m _ _ Em)
    in E by lia.
  injection E as ->.
  destruct (editor_loop_appends _ _ _ _ E2) as (ext & Hext).
  rewrite Hext. rewrite !slice_to_firstn by lia.
  rewrite !firstn_firstn, !Nat.min_l by lia.
  rewrite <- !app_assoc.
  rewrite !(firstn_app _ (ed_data sn)).
  replace (Z.to_nat (n - 20) - length (ed_data sn))%nat with 0%nat
    by (unfold len in Hexit; lia).
  reflexivity.
Qed.

Lemma editor_data_common_prefix_witness :
  20 <= 100 <= 200 /\ (Z.to_nat 100 <= 100)%nat /\ (Z.to_nat 200 <= 200)%nat /\
  exists dn dm,
    generate_editor_data 100 100 tt = Done dn tt /\
    generate_editor_data 200 200 tt = Done dm tt /\
    slice_to dn (100 - 20) = slice_to dm (100 - 20).
Proof.
  assert (H1 : 20 <= 100 <= 200) by lia.
  assert (H2 : (Z.to_nat 100 <= 100)%nat) by apply Nat.le_refl.
  assert (H3 : (Z.to_nat 200 <= 200)%nat) by apply Nat.le_refl.
  split; [exact H1 |]. split; [exact H2 |]. split; [exact H3 |].
  exact (editor_data_common_prefix 100 200 100 200 tt H1 H2 H3).
Defined.

(** ** Runs with and without zstd *)

Lemma filter_flat_map {A B : Type} (p : B -> bool) (f : A -> list B) (l : list A) :
  filter p (flat_map f l) = flat_map (fun x => filter p (f x)) l.
Proof.
  induction l as [| x l IH]; [reflexivity |].
  cbn [flat_map]. now rewrite filter_app, IH.
Qed.

Lemma filter_map_comm {A B : Type} (p : B -> bool) (f : A -> B) (l : list A) :
  filter p (map f l) = map f (filter (fun x => p (f x)) l).
Proof.
  induction l as [| x l IH]; [reflexivity |].
  cbn [map filter]. destruct (p (f x)); cbn [map]; now rewrite IH.
Qed.

(** Without zstd a table has the cells of the table with zstd that are not
    zstd cells, in the same order. *)
Lemma table_plan_without_zstd (size : Z) :
  table_plan false size = filter (fun m => negb (is_zstd m)) (table_plan true size).
Proof.
  unfold table_plan. cbn [map flat_map].
  destruct (512 >? size), (1024 >? size), (2048 >? size), (size <=? 16384);
    reflexivity.
Qed.

Section ZstdAvailability.
Context {G T : Type} `{RandomGen G} `{Clock T}.
Variable zlib_compress : bytes -> Z -> bytes.
Variable lzma_compress : bytes -> bytes.
Variable zstd_compress : Z -> bytes -> bytes.

Local Abbreviation world := (World G T).

Lemma matrix_cells_without_zstd :
  matrix_cells zlib_compress lzma_compress zstd_compress false =
  filter (fun c : cell => negb (prefix "zstd" (fst (fst c))))
    (matrix_cells zlib_compress lzma_compress zstd_compress true).
Proof.
  unfold matrix_cells. rewrite filter_flat_map. apply flat_map_ext.
  intros size. unfold size_cells, table_cells.
  rewrite filter_app, !filter_map_comm, table_plan_without_zstd.
  f_equal; f_equal; apply filter_ext; intros m; unfold cell_of; cbn [fst];
    now rewrite label_prefix_zstd.
Qed.

(** X22.  Whether zstd is available changes nothing else: the rows of a run
    without zstd are the rows of a run with zstd from which the zstd rows
    are removed, in the same order and with the same sizes and compressed
    sizes, whatever the states the two runs start from. *)
Theorem zstd_rows_are_additive (fuel1 fuel2 : nat) (w1 w2 : world) :
  65536 <= Z.of_nat fuel1 -> 65536 <= Z.of_nat fuel2 ->
  exists w1' new1 w2' new2,
    main zlib_compress lzma_compress zstd_compress false fuel1 w1 = Done tt w1' /\
    w_stdout w1' = w_stdout w1 ++ new1 /\
    main zlib_compress lzma_compress zstd_compress true fuel2 w2 = Done tt w2' /\
    w_stdout w2' = w_stdout w2 ++ new2 /\
    cells new1 =
    filter (fun c : cell => negb (prefix "zstd" (fst (fst c)))) (cells new2).
Proof.
  intros Hf1 Hf2.
  destruct (main_done zlib_compress lzma_compress zstd_compress false fuel1 w1
              Hf1) as (w1' & new1 & E1 & Hout1 & _ & Hc1).
  destruct (main_done zlib_compress lzma_compress zstd_compress true fuel2 w2
              Hf2) as (w2' & new2 & E2 & Hout2 & _ & Hc2).
  exists w1', new1, w2', new2. repeat split; try assumption.
  rewrite Hc1, Hc2. apply matrix_cells_without_zstd.
Qed.

End ZstdAvailability.

Lemma zstd_rows_are_additive_witness :
  65536 <= Z.of_nat (Z.to_nat 65536) /\ 65536 <= Z.of_nat (Z.to_nat 70000) /\
  exists w1' new1 w2' new2,
    main Sample.zlib Sample.lzma Sample.zstd false (Z.to_nat 65536)
      Sample.world0 = Done tt w1' /\
    w_stdout w1' = w_stdout Sample.world0 ++ new1 /\
    main Sample.zlib Sample.lzma Sample.zstd true (Z.to_nat 70000)
      Sample.world0 = Done tt w2' /\
    w_stdout w2' = w_stdout Sample.world0 ++ new2 /\
    cells new1 =
    filter (fun c : cell => negb (prefix "zstd" (fst (fst c)))) (cells new2).
Proof.
  assert (H1 : 65536 <= Z.of_nat (Z.to_nat 65536)) by (rewrite Z2Nat.id; lia).
  assert (H2 : 65536 <= Z.of_nat (Z.to_nat 70000)) by (rewrite Z2Nat.id; lia).
  split; [exact H1 |]. split; [exact H2 |].
  exact (zstd_rows_are_additive Sample.zlib Sample.lzma Sample.zstd
           (Z.to_nat 65536) (Z.to_nat 70000) Sample.world0 Sample.world0 H1 H2).
Defined.

(** ** The further properties at the sample environment *)

Lemma per_frame_terminates_iff_witness :
  ((b "abc" = [] \/ 0 < 2) /\
   exists r1 w1 r2 w2,
     compress_per_frame_zlib Sample.zlib (Z.to_nat (len (b "abc"))) (b "abc")
       2 6 Sample.world0 = Done r1 w1 /\
     compress_per_frame_zstd Sample.zstd true (Z.to_nat (len (b "abc")))
       (b "abc") 2 6 Sample.world0 = Done r2 w2) /\
  (b "abc" <> [] /\ -1 <= 0 /\
   forall fuel,
     compress_per_frame_zlib Sample.zlib fuel (b "abc") (-1) 6 Sample.world0
     = Exhausted /\
     compress_per_frame_zstd Sample.zstd true fuel (b "abc") (-1) 6 Sample.world0
     = Exhausted).
Proof.
  assert (H1 : b "abc" = [] \/ 0 < 2) by (right; lia).
  assert (H2 : b "abc" <> []) by discriminate.
  assert (H3 : -1 <= 0) by lia.
  split.
  - split; [exact H1 |].
    exact (proj1 (per_frame_terminates_iff Sample.zlib Sample.zstd (b "abc") 2 6
                    Sample.world0) H1).
  - split; [exact H2 |]. split; [exact H3 |].
    exact (proj2 (per_frame_terminates_iff Sample.zlib Sample.zstd (b "abc")
                    (-1) 6 Sample.world0) H2 H3).
Defined.

Lemma oversized_frame_is_streaming_witness :
  b "abc" <> [] /\ len (b "abc") <= 512 /\ (0 < 1)%nat /\
  chunks (b "abc") 512 = [b "abc"] /\
  exists payload elapsed1 w1 elapsed2 w2,
    compress_streaming_zlib Sample.zlib (b "abc") 6 Sample.world0
    = Done (payload, elapsed1) w1 /\
    compress_per_frame_zlib Sample.zlib 1 (b "abc") 512 6 Sample.world0
    = Done (payload + 4, elapsed2) w2.
Proof.
  assert (H1 : b "abc" <> []) by discriminate.
  assert (H2 : len (b "abc") <= 512) by (vm_compute; discriminate).
  assert (H3 : (0 < 1)%nat) by lia.
  split; [exact H1 |]. split; [exact H2 |]. split; [exact H3 |].
  exact (oversized_frame_is_streaming (G := Z) Sample.zlib 1 (b "abc") 512 6
           Sample.world0 H1 H2 H3).
Defined.

Lemma per_frame_chunk_sizes_witness :
  0 < 2 /\ (Z.to_nat (len (b "abcde")) <= 5)%nat /\
  exists cs,
    visited_chunks 5 (b "abcde") 2 0 = Some cs /\
    forall k c, nth_error cs k = Some c ->
      ((S k < length cs)%nat -> len c = 2) /\
      (S k = length cs ->
       len c = len (b "abcde") - Z.of_nat k * 2 /\ 1 <= len c <= 2).
Proof.
  assert (H1 : 0 < 2) by lia.
  assert (H2 : (Z.to_nat (len (b "abcde")) <= 5)%nat) by apply Nat.le_refl.
  split; [exact H1 |]. split; [exact H2 |].
  exact (per_frame_chunk_sizes 5 (b "abcde") 2 H1 H2).
Defined.

Lemma per_frame_header_overhead_witness :
  0 < 2 <= 4 /\ (Z.to_nat (len (b "abcde")) <= 5)%nat /\
  (exists total elapsed w',
      compress_per_frame_zlib Sample.zlib 5 (b "abcde") 2 6 Sample.world0
      = Done (total, elapsed) w' /\
      total =
      4 * ceil_div (len (b "abcde")) 2
      + sum (map (fun chunk => len (Sample.zlib chunk 6)) (chunks (b "abcde") 2))) /\
  4 * ceil_div (len (b "abcde")) 4 <= 4 * ceil_div (len (b "abcde")) 2.
Proof.
  assert (H1 : 0 < 2 <= 4) by lia.
  assert (H2 : (Z.to_nat (len (b "abcde")) <= 5)%nat) by apply Nat.le_refl.
  split; [exact H1 |]. split; [exact H2 |].
  exact (per_frame_header_overhead (G := Z) Sample.zlib 5 (b "abcde") 2 4 6
           Sample.world0 H1 H2).
Defined.

Lemma measurement_reads_clock_twice_witness :
  0 < 2 /\ (Z.to_nat (len (b "abcde")) <= 5)%nat /\
  let (start, c1) := clock_read (w_clock Sample.world0) in
  let (stop, c2) := clock_read c1 in
  let w' := mk_World (w_rng Sample.world0) c2 (w_stdout Sample.world0) in
  compress_streaming_zlib Sample.zlib (b "abcde") 6 Sample.world0 =
    Done (len (Sample.zlib (b "abcde") 6), stop - start) w' /\
  compress_per_frame_zlib Sample.zlib 5 (b "abcde") 2 6 Sample.world0 =
    Done (per_frame_size (fun chunk => Sample.zlib chunk 6) (b "abcde") 2,
          stop - start) w'.
Proof.
  assert (H1 : 0 < 2) by lia.
  assert (H2 : (Z.to_nat (len (b "abcde")) <= 5)%nat) by apply Nat.le_refl.
  split; [exact H1 |]. split; [exact H2 |].
  exact (measurement_reads_clock_twice (G := Z) Sample.zlib 5 (b "abcde") 2 6
           Sample.world0 H1 H2).
Defined.

Lemma rows_are_the_unskipped_cells_witness :
  65536 <= Z.of_nat (Z.to_nat 65536) /\
  exists w' new,
    main Sample.zlib Sample.lzma Sample.zstd true (Z.to_nat 65536) Sample.world0
    = Done tt w' /\
    w_stdout w' = w_stdout Sample.world0 ++ new /\
    forall size m, In size test_sizes -> In m sweep ->
      ((exists comp, In (label_of m, size, comp) (cells new))
       <-> measured true size m = true).
Proof.
  assert (Hfuel : 65536 <= Z.of_nat (Z.to_nat 65536)) by (rewrite Z2Nat.id; lia).
  split; [exact Hfuel |].
  exact (rows_are_the_unskipped_cells Sample.zlib Sample.lzma Sample.zstd
           true (Z.to_nat 65536) Sample.world0 Hfuel).
Defined.

Lemma row_count_witness :
  65536 <= Z.of_nat (Z.to_nat 65536) /\
  exists w' new,
    main Sample.zlib Sample.lzma Sample.zstd false (Z.to_nat 65536) Sample.world0
    = Done tt w' /\
    w_stdout w' = w_stdout Sample.world0 ++ new /\
    length (cells new) = 74%nat.
Proof.
  assert (Hfuel : 65536 <= Z.of_nat (Z.to_nat 65536)) by (rewrite Z2Nat.id; lia).
  split; [exact Hfuel |].
  exact (row_count Sample.zlib Sample.lzma Sample.zstd
           false (Z.to_nat 65536) Sample.world0 Hfuel).
Defined.

Lemma rows_report_true_sizes_witness :
  65536 <= Z.of_nat (Z.to_nat 65536) /\
  exists w' new,
    main Sample.zlib Sample.lzma Sample.zstd true (Z.to_nat 65536) Sample.world0
    = Done tt w' /\
    w_stdout w' = w_stdout Sample.world0 ++ new /\
    forall label size comp, In (label, size, comp) (cells new) ->
      exists data m,
        ((exists g',
             generate_terminal_data (Z.to_nat 65536) size (w_rng Sample.world0)
             = Done data g')
         \/ generate_editor_data (Z.to_nat 65536) size Sample.world0
            = Done data Sample.world0) /\
        len data = size /\
        In size test_sizes /\
        label = label_of m /\
        comp = comp_of Sample.zlib Sample.lzma Sample.zstd data m.
Proof.
  assert (Hfuel : 65536 <= Z.of_nat (Z.to_nat 65536)) by (rewrite Z2Nat.id; lia).
  split; [exact Hfuel |].
  exact (rows_report_true_sizes Sample.zlib Sample.lzma Sample.zstd
           true (Z.to_nat 65536) Sample.world0 Hfuel).
Defined.

Lemma zstd_present_no_notice_witness :
  65536 <= Z.of_nat (Z.to_nat 65536) /\
  module_init true Sample.world0 = Done true Sample.world0 /\
  exists w' new,
    program Sample.zlib Sample.lzma Sample.zstd true (Z.to_nat 65536)
      Sample.world0 = Done tt w' /\
    w_stdout w' = w_stdout Sample.world0 ++ new /\
    quiet new = true.
Proof.
  assert (Hfuel : 65536 <= Z.of_nat (Z.to_nat 65536)) by (rewrite Z2Nat.id; lia).
  split; [exact Hfuel |].
  exact (zstd_present_no_notice Sample.zlib Sample.lzma Sample.zstd
           (Z.to_nat 65536) Sample.world0 Hfuel).
Defined.
